(** * Earnings volatility engine: scoring, extraction and scan pipeline

    A shallow embedding of [app.py].  The numeric values of the program are
    numpy [float64]s; they are modelled by exact real numbers extended with
    the not-a-number value, which is the only special value the program
    produces on purpose ([hist_move] returns [np.nan]).  Rounding error,
    overflow, infinities and signed zeros are outside the model: a division
    by zero, which numpy answers with an infinity or a nan, is mapped to
    [NaN]. *)

From Stdlib Require Import Reals Lra.
From stdpp Require Import gmap strings list fin_maps.

Open Scope R_scope.

(** ** Numeric model *)

Module Float64.

Inductive float64 : Type :=
| NaN
| Num (x : R).

#[global] Instance Rle_decision (x y : R) : Decision (x <= y) := Rle_dec x y.
#[global] Instance Rlt_decision (x y : R) : Decision (x < y) := Rlt_dec x y.
#[global] Instance Req_decision (x y : R) : Decision (x = y) := Req_dec_T x y.

Definition lift1 (f : R -> R) (a : float64) : float64 :=
  match a with
  | Num x => Num (f x)
  | NaN => NaN
  end.

Definition lift2 (f : R -> R -> R) (a b : float64) : float64 :=
  match a, b with
  | Num x, Num y => Num (f x y)
  | _, _ => NaN
  end.

Definition fadd : float64 -> float64 -> float64 := lift2 Rplus.
Definition fsub : float64 -> float64 -> float64 := lift2 Rminus.
Definition fmul : float64 -> float64 -> float64 := lift2 Rmult.

Definition fdiv (a b : float64) : float64 :=
  match a, b with
  | Num x, Num y => if decide (y = 0) then NaN else Num (x / y)
  | _, _ => NaN
  end.

Definition fabs : float64 -> float64 := lift1 Rabs.

(** [np.tanh] *)
Definition ftanh : float64 -> float64 := lift1 tanh.

(** [a >= b]; every comparison with a nan is false. *)
Definition fge (a b : float64) : bool :=
  match a, b with
  | Num x, Num y => bool_decide (y <= x)
  | _, _ => false
  end.

End Float64.
Export Float64.

Declare Scope f64_scope.
Delimit Scope f64_scope with f64.
Bind Scope f64_scope with float64.
Infix "+" := fadd : f64_scope.
Infix "-" := fsub : f64_scope.
Infix "*" := fmul : f64_scope.
Infix "/" := fdiv : f64_scope.
Infix ">=?" := fge (at level 70) : f64_scope.

(** ** Scoring model *)

Definition score_model (implied_move hist_move skew oi : float64)
  : float64 * float64 * float64 :=
  let underpricing := (hist_move / (implied_move + Num 1e-6))%f64 in
  let tilt := (Num 0.3 * ftanh skew + Num 0.2 * ftanh oi)%f64 in
  let squeeze := (Num 0.5 + tilt)%f64 in
  let cascade := (Num 0.5 - tilt)%f64 in
  (underpricing, squeeze, cascade).

(** ** Exceptions *)

Inductive exn : Type :=
| ValueError
| KeyError
| IndexError
| AttributeError
| ProviderError.

Inductive result (A : Type) : Type :=
| Ok (a : A)
| Raise (e : exn).
Arguments Ok {A} a.
Arguments Raise {A} e.

#[global] Instance result_ret : MRet result := fun A a => Ok a.
#[global] Instance result_bind : MBind result := fun A B f m =>
  match m with
  | Ok a => f a
  | Raise e => Raise e
  end.

(** [try: body / except: return handler] with a bare [except]. *)
Definition try_except {A : Type} (body : result A) (handler : A) : A :=
  match body with
  | Ok a => a
  | Raise _ => handler
  end.

(** ** pandas: series and frames

    A series is the list of its values under the default [RangeIndex], so a
    label is a position.  A frame is the map from its column names to its
    columns. *)

Abbreviation Series := (list float64).
Abbreviation DataFrame := (gmap string (list float64)).

(** [df[col]] *)
Definition frame_getitem (df : DataFrame) (col : string) : result Series :=
  match df !! col with
  | Some s => Ok s
  | None => Raise KeyError
  end.

(** [df[col] = s] *)
Definition frame_setitem (df : DataFrame) (col : string) (s : Series) : DataFrame :=
  <[col := s]> df.

(** [df.loc[label]]: the row at a label, as a series indexed by column name. *)
Definition frame_loc (df : DataFrame) (label : nat) : gmap string float64 :=
  omap (fun s : list float64 => s !! label) df.

(** [row[col]] *)
Definition row_getitem (row : gmap string float64) (col : string) : result float64 :=
  match row !! col with
  | Some v => Ok v
  | None => Raise KeyError
  end.

(** [s - x] and [abs(s)], elementwise *)
Definition series_sub_scalar (s : Series) (x : float64) : Series :=
  map (fun v => fsub v x) s.

Definition series_abs (s : Series) : Series := map fabs s.

(** The values of a series that are not nan ([skipna=True]). *)
Fixpoint dropna (s : Series) : list R :=
  match s with
  | [] => []
  | NaN :: s' => dropna s'
  | Num x :: s' => x :: dropna s'
  end.

Definition Rsum (xs : list R) : R := foldr Rplus 0 xs.

(** [s.sum()]: nans are skipped, and the sum of nothing is 0. *)
Definition series_sum (s : Series) : float64 := Num (Rsum (dropna s)).

(** [s.mean()]: nans are skipped, and the mean of nothing is nan. *)
Definition series_mean (s : Series) : float64 :=
  match dropna s with
  | [] => NaN
  | xs => Num (Rsum xs / INR (length xs))
  end.

(** [s.idxmin()]: the label of the first occurrence of the minimum, nans
    skipped.  [argmin_from best_i best i s] scans [s], whose first label is
    [i], keeping the first label that holds the least value seen so far. *)
Fixpoint argmin_from (best_i : nat) (best : R) (i : nat) (s : Series) : nat :=
  match s with
  | [] => best_i
  | NaN :: s' => argmin_from best_i best (S i) s'
  | Num x :: s' =>
      if decide (x < best) then argmin_from i x (S i) s'
      else argmin_from best_i best (S i) s'
  end.

Fixpoint first_valid_argmin (i : nat) (s : Series) : option nat :=
  match s with
  | [] => None
  | NaN :: s' => first_valid_argmin (S i) s'
  | Num x :: s' => Some (argmin_from i x (S i) s')
  end.

(** An empty series has no minimum: pandas raises [ValueError].  A series of
    nans only has none either (pandas 3 raises the same error; earlier
    versions answer nan, on which the following [loc] raises). *)
Definition idxmin (s : Series) : result nat :=
  match first_valid_argmin 0 s with
  | Some i => Ok i
  | None => Raise ValueError
  end.

(** [s.shift(1)] and [s.pct_change()] = [s / s.shift(1) - 1]; missing
    values are not filled. *)
Definition shift1 (s : Series) : Series :=
  match s with
  | [] => []
  | _ :: _ => NaN :: removelast s
  end.

Definition pct_change (s : Series) : Series :=
  zip_with (fun x prev => fsub (fdiv x prev) (Num 1)) s (shift1 s).

(** [s.iloc[-1]] *)
Definition iloc_last (s : Series) : result float64 :=
  match last s with
  | Some v => Ok v
  | None => Raise IndexError
  end.

(** [round(x, ndigits)]: to the nearest multiple of [10^-ndigits], halves to
    the even neighbour. *)
Definition rint (x : R) : Z :=
  let f := Int_part x in
  let r := frac_part x in
  if decide (r < 1 / 2) then f
  else if decide (1 / 2 < r) then (f + 1)%Z
  else if Z.even f then f else (f + 1)%Z.

Definition round_ndigits (x : float64) (ndigits : nat) : float64 :=
  lift1 (fun r => IZR (rint (r * 10 ^ ndigits)) / 10 ^ ndigits) x.

(** ** The fetched option chain as shared state

    [calls] and [puts] are two frame objects handed to every extractor of one
    scan iteration; an extractor is a computation over this pair that may
    raise. *)

Record chains : Type := Chains {
  calls : gmap string (list float64);
  puts : gmap string (list float64)
}.

Inductive side : Type := Calls | Puts.

Definition M (A : Type) : Type := chains -> result A * chains.

#[global] Instance M_ret : MRet M := fun A a st => (Ok a, st).
#[global] Instance M_bind : MBind M := fun A B f m st =>
  match m st with
  | (Ok a, st') => f a st'
  | (Raise e, st') => (Raise e, st')
  end.

Definition lift_result {A : Type} (r : result A) : M A := fun st => (r, st).

Definition frame_of (sd : side) (st : chains) : gmap string (list float64) :=
  match sd with
  | Calls => calls st
  | Puts => puts st
  end.

Definition getitem (sd : side) (col : string) : M (list float64) :=
  fun st => (frame_getitem (frame_of sd st) col, st).

Definition setitem (sd : side) (col : string) (s : Series) : M unit :=
  fun st =>
    match sd with
    | Calls => (Ok tt, Chains (frame_setitem (calls st) col s) (puts st))
    | Puts => (Ok tt, Chains (calls st) (frame_setitem (puts st) col s))
    end.

Definition loc (sd : side) (label : nat) : M (gmap string float64) :=
  fun st => (Ok (frame_loc (frame_of sd st) label), st).

(** ** Metric extractors over the chain *)

Definition implied_move (spot : float64) : M float64 :=
  strike ← getitem Calls "strike";
  setitem Calls "dist" (series_abs (series_sub_scalar strike spot));;
  strike ← getitem Puts "strike";
  setitem Puts "dist" (series_abs (series_sub_scalar strike spot));;
  dist ← getitem Calls "dist";
  i ← lift_result (idxmin dist);
  atm_call ← loc Calls i;
  dist ← getitem Puts "dist";
  j ← lift_result (idxmin dist);
  atm_put ← loc Puts j;
  call_price ← lift_result (row_getitem atm_call "lastPrice");
  put_price ← lift_result (row_getitem atm_put "lastPrice");
  mret ((call_price + put_price) / spot)%f64.

Definition skew_proxy : M float64 :=
  put_iv ← getitem Puts "impliedVolatility";
  call_iv ← getitem Calls "impliedVolatility";
  mret (series_mean put_iv - series_mean call_iv)%f64.

Definition oi_imbalance : M float64 :=
  oi ← getitem Calls "openInterest";
  let call_oi := series_sum oi in
  oi ← getitem Puts "openInterest";
  let put_oi := series_sum oi in
  mret ((call_oi - put_oi) / (call_oi + put_oi + Num 1))%f64.

(** ** The market-data provider

    Everything [yfinance] answers for a ticker; any call may raise. *)

Record date : Type := Date { year : Z; month : Z; day : Z }.

#[global] Instance date_eq_dec : EqDecision date.
Proof. solve_decision. Defined.

(** What the engine observes of [stock.calendar]: [cal.empty] and
    [cal.loc["Earnings Date"][0].date()], each of which may raise on a
    malformed calendar. *)
Record Calendar : Type := {
  empty : result bool;
  earnings_date : result date
}.

Record Provider : Type := {
  (** [stock.calendar], possibly [None] *)
  calendar : string -> result (option Calendar);
  (** [stock.history(period=...)] *)
  history : string -> string -> result (gmap string (list float64));
  (** [stock.options], the expiration dates *)
  options : string -> result (list string);
  (** [stock.option_chain(expiry)], as [(chain.calls, chain.puts)] *)
  option_chain : string -> string -> result (gmap string (list float64) * gmap string (list float64))
}.

(** One row of the result table. *)
Record ResultRow : Type := {
  Ticker : string;
  Spot : float64;
  Implied_Move_pct : float64;
  Hist_Avg_Move_pct : float64;
  Underpricing : float64;
  Squeeze_Prob : float64;
  Cascade_Prob : float64
}.

Section Engine.

Variable yf : Provider.
Variable TODAY : date.
Variables min_underpricing min_prob : float64.

(** *** Core functions bound to the provider *)

Definition reports_today_try (ticker : string) : result bool :=
  cal ← calendar yf ticker;
  match cal with
  | None => Ok false
  | Some cal =>
      is_empty ← empty cal;
      if is_empty : bool then Ok false
      else
        d ← earnings_date cal;
        Ok (bool_decide (d = TODAY))
  end.

Definition reports_today (ticker : string) : bool :=
  try_except (reports_today_try ticker) false.

Definition get_options_data_try (ticker : string)
  : result (option (float64 * string * gmap string (list float64) * gmap string (list float64))) :=
  df ← history yf ticker "1d";
  close ← frame_getitem df "Close";
  spot ← iloc_last close;
  expirations ← options yf ticker;
  match expirations with
  | [] => Ok None
  | expiry :: _ =>
      chain ← option_chain yf ticker expiry;
      Ok (Some (spot, expiry, chain.1, chain.2))
  end.

Definition get_options_data (ticker : string)
  : option (float64 * string * gmap string (list float64) * gmap string (list float64)) :=
  try_except (get_options_data_try ticker) None.

Definition hist_move_try (ticker : string) : result float64 :=
  df ← history yf ticker "2y";
  close ← frame_getitem df "Close";
  let df := frame_setitem df "ret" (pct_change close) in
  ret ← frame_getitem df "ret";
  Ok (series_mean (series_abs ret)).

Definition hist_move (ticker : string) : float64 :=
  try_except (hist_move_try ticker) NaN.

(** *** Scan engine *)

(** The acceptance test of the scan loop. *)
Definition accepted (underpricing squeeze cascade : float64) : bool :=
  fge underpricing min_underpricing
  && (fge squeeze min_prob || fge cascade min_prob).

(** The body of the loop for one ticker: [results] is the list built so
    far; an exception that escapes an extractor ends the scan.  The pause
    [time.sleep(0.3)] at the end of each iteration has no effect on the
    values and is left out. *)
Definition scan_ticker (results : list ResultRow) (ticker : string)
  : result (list ResultRow) :=
  if reports_today ticker then
    match get_options_data ticker with
    | Some (spot, expiry, calls, puts) =>
        fst
          ((im ← implied_move spot;
            let hm := hist_move ticker in
            skew ← skew_proxy;
            oi ← oi_imbalance;
            let '(underpricing, squeeze, cascade) := score_model im hm skew oi in
            if accepted underpricing squeeze cascade then
              mret (results ++
                [{| Ticker := ticker;
                    Spot := round_ndigits spot 2;
                    Implied_Move_pct := round_ndigits (im * Num 100)%f64 2;
                    Hist_Avg_Move_pct := round_ndigits (hm * Num 100)%f64 2;
                    Underpricing := round_ndigits underpricing 2;
                    Squeeze_Prob := round_ndigits squeeze 2;
                    Cascade_Prob := round_ndigits cascade 2 |}])
            else mret results) (Chains calls puts))
    | None => Ok results
    end
  else Ok results.

Fixpoint scan_loop (results : list ResultRow) (universe : list string)
  : result (list ResultRow) :=
  match universe with
  | [] => Ok results
  | ticker :: universe' =>
      results' ← scan_ticker results ticker;
      scan_loop results' universe'
  end.

(** [results = []] followed by the loop over [UNIVERSE]. *)
Definition scan (universe : list string) : result (list ResultRow) :=
  scan_loop [] universe.

End Engine.

(** ** Predicates used in the statements *)

(** Row [i] of a strike column is at the money for [spot]: its strike is at
    the least distance from [spot], and strictly nearer than every row
    before it. *)
Definition at_the_money (spot : R) (strikes : list R) (i : nat) : Prop :=
  exists k_i,
    strikes !! i = Some k_i /\
    (forall j k_j, strikes !! j = Some k_j -> Rabs (k_i - spot) <= Rabs (k_j - spot)) /\
    (forall j k_j, (j < i)%nat -> strikes !! j = Some k_j ->
                   Rabs (k_i - spot) < Rabs (k_j - spot)).

(** A frame without rows: every column it has is empty. *)
Definition empty_frame (df : gmap string (list float64)) : Prop :=
  forall col s, df !! col = Some s -> s = [].

(** The earnings-date lookup for a ticker succeeds and answers [today]: the
    provider returns a calendar that is not empty and whose earnings date is
    [today]. *)
Definition earnings_today (yf : Provider) (today : date) (ticker : string) : Prop :=
  exists cal,
    calendar yf ticker = Ok (Some cal) /\
    empty cal = Ok false /\
    earnings_date cal = Ok today.

(** ** The universe and further predicates used in the statements *)

(** [UNIVERSE = get_sp500()[:max_symbols]]: the first [max_symbols] symbols
    of the list read from the universe file. *)
Definition UNIVERSE (sp500 : list string) (max_symbols : nat) : list string :=
  take max_symbols sp500.

(** The options fetch for a ticker goes through: the one-day history has a
    last close [spot], the ticker lists expirations of which [expiry] is the
    first, and the chain of that expiry is fetched as [(c, p)]. *)
Definition options_available (yf : Provider) (ticker : string)
    (spot : float64) (expiry : string) (c p : gmap string (list float64)) : Prop :=
  exists df close later,
    history yf ticker "1d" = Ok df /\
    df !! "Close" = Some close /\
    last close = Some spot /\
    options yf ticker = Ok (expiry :: later) /\
    option_chain yf ticker expiry = Ok (c, p).

(** The day-over-day returns of the closes [cs] that follow the close
    [prev]. *)
Fixpoint daily_returns (prev : R) (cs : list R) : list R :=
  match cs with
  | [] => []
  | c :: cs' => (c / prev - 1) :: daily_returns c cs'
  end.

(** The chain with its two sides exchanged. *)
Definition swap_sides (st : chains) : chains := Chains (puts st) (calls st).

Definition fneg : float64 -> float64 := lift1 Ropp.

(** A value that is a number and not negative. *)
Definition nonneg (v : float64) : Prop := exists x, v = Num x /\ 0 <= x.

(** ** Sample data *)

Module Sample.

(** Calls and puts of one expiry; the strikes 95 and 105 are equally near
    a spot of 100. *)
Definition calls_abc : gmap string (list float64) :=
  <["strike" := [Num 90; Num 95; Num 105; Num 110]]>
  (<["lastPrice" := [Num 11; Num 3; Num 1; Num 0.5]]>
  (<["impliedVolatility" := [Num 0.31; Num 0.29; Num 0.28; Num 0.28]]>
  (<["openInterest" := [Num 1; Num 2; Num 1; Num 1]]> ∅))).

Definition puts_abc : gmap string (list float64) :=
  <["strike" := [Num 90; Num 95; Num 105; Num 110]]>
  (<["lastPrice" := [Num 0.4; Num 2; Num 6; Num 10.5]]>
  (<["impliedVolatility" := [Num 0.32; Num 0.30; Num 0.29; Num 0.29]]>
  (<["openInterest" := [Num 1; Num 1; Num 1; Num 1]]> ∅))).

Definition chain_abc : chains := Chains calls_abc puts_abc.

(** A chain whose call side has no rows. *)
Definition no_calls : gmap string (list float64) :=
  <["strike" := []]>
  (<["lastPrice" := []]>
  (<["impliedVolatility" := []]>
  (<["openInterest" := []]> ∅))).

Definition today : date := Date 2026 11 4.

Definition calendar_today : Calendar :=
  {| empty := Ok false; earnings_date := Ok today |}.

Definition calendar_tomorrow : Calendar :=
  {| empty := Ok false; earnings_date := Ok (Date 2026 11 5) |}.

Definition closes (s : list float64) : gmap string (list float64) :=
  <["Close" := s]> ∅.

(** A provider that knows five tickers:
    - "ABC" reports today and has a full chain and a price history;
    - "LOW" is like "ABC", with a smaller historical move;
    - "NOH" is like "ABC", but its two-year history cannot be fetched;
    - "EMP" reports today and has a chain without calls;
    - "LTR" reports tomorrow;
    the calendar of every other ticker cannot be fetched. *)
Definition yf : Provider :=
  {| calendar := fun ticker =>
       if decide (ticker = "ABC" \/ ticker = "LOW" \/ ticker = "NOH" \/ ticker = "EMP")
       then Ok (Some calendar_today)
       else if decide (ticker = "LTR") then Ok (Some calendar_tomorrow)
       else Raise ProviderError;
     history := fun ticker period =>
       if decide (period = "1d") then Ok (closes [Num 100])
       else if decide (ticker = "NOH") then Raise ProviderError
       else if decide (ticker = "LOW") then Ok (closes [Num 100; Num 102])
       else Ok (closes [Num 100; Num 107]);
     options := fun ticker => Ok ["2026-11-20"; "2026-12-18"];
     option_chain := fun ticker expiry =>
       if decide (ticker = "EMP") then Ok (no_calls, puts_abc)
       else Ok (calls_abc, puts_abc) |}.

(** A provider like [yf] on which "ABC" lists no expiration. *)
Definition yf_no_expiry : Provider :=
  {| calendar := calendar yf;
     history := history yf;
     options := fun ticker => if decide (ticker = "ABC") then Ok [] else options yf ticker;
     option_chain := option_chain yf |}.

(** A provider like [yf] whose call frames carry no implied volatility. *)
Definition calls_nan_iv : gmap string (list float64) :=
  <["impliedVolatility" := [NaN; NaN; NaN; NaN]]> calls_abc.

Definition yf_nan_iv : Provider :=
  {| calendar := calendar yf;
     history := history yf;
     options := options yf;
     option_chain := fun ticker expiry => Ok (calls_nan_iv, puts_abc) |}.

(** A universe over the sample provider, and the one row its scan lists. *)
Definition universe : list string := ["XYZ"; "LTR"; "LOW"; "NOH"; "ABC"].

Definition row_abc : ResultRow :=
  {| Ticker := "ABC"; Spot := Num 100; Implied_Move_pct := Num 5;
     Hist_Avg_Move_pct := Num 7; Underpricing := Num 1.4;
     Squeeze_Prob := Num 0.52; Cascade_Prob := Num 0.48 |}.

End Sample.

(** * Properties *)

(** ** The numeric model *)

Lemma tanh_bounds (x : R) : -1 < tanh x < 1.
Proof.
  unfold tanh, sinh, cosh.
  pose proof (exp_pos x) as Hp.
  pose proof (exp_pos (- x)) as Hn.
  split; apply Rmult_lt_reg_r with ((exp x + exp (- x)) / 2);
    try lra; field_simplify; lra.
Qed.

Lemma fge_Num (x y : R) : fge (Num x) (Num y) = true <-> y <= x.
Proof. simpl. apply bool_decide_eq_true. Qed.

Lemma fge_true_inv (a b : float64) :
  fge a b = true -> exists x y, a = Num x /\ b = Num y /\ y <= x.
Proof.
  destruct a as [|x], b as [|y]; simpl; try discriminate.
  intros H. apply bool_decide_eq_true in H. eauto.
Qed.

Lemma fge_NaN_l (b : float64) : fge NaN b = false.
Proof. reflexivity. Qed.

Lemma fdiv_Num (x y : R) : y <> 0 -> fdiv (Num x) (Num y) = Num (x / y).
Proof. intros Hy. unfold fdiv. destruct (decide (y = 0)); [contradiction | reflexivity]. Qed.

Lemma fdiv_NaN_l (b : float64) : fdiv NaN b = NaN.
Proof. reflexivity. Qed.

(** ** Scoring model: claims *)

(** C1: for every implied move and historical move (not-a-number included)
    and every skew and imbalance that are numbers, the scoring function
    returns squeeze = 0.5 + tilt and cascade = 0.5 - tilt for one and the
    same tilt, and the two probabilities sum to exactly 1. *)
Theorem score_model_complementary (im hm : float64) (skew oi : R) :
  exists tilt : R,
    tilt = 0.3 * tanh skew + 0.2 * tanh oi /\
    snd (fst (score_model im hm (Num skew) (Num oi))) = Num (0.5 + tilt) /\
    snd (score_model im hm (Num skew) (Num oi)) = Num (0.5 - tilt) /\
    fadd (snd (fst (score_model im hm (Num skew) (Num oi))))
         (snd (score_model im hm (Num skew) (Num oi))) = Num 1.
Proof.
  exists (0.3 * tanh skew + 0.2 * tanh oi).
  repeat split; simpl.
  f_equal. lra.
Qed.

(** C2: the underpricing returned by the scoring function is
    hist_move / (implied_move + 1e-6), and it is >= 0 whenever
    hist_move >= 0 and implied_move >= 0. *)
Theorem score_model_underpricing_nonneg (im hm skew oi : float64) :
  fst (fst (score_model im hm skew oi))
    = fdiv hm (fadd im (Num 1e-6)) /\
  (fge hm (Num 0) = true ->
   fge im (Num 0) = true ->
   fge (fst (fst (score_model im hm skew oi))) (Num 0) = true).
Proof.
  split; [reflexivity |].
  intros Hh Hi.
  apply fge_true_inv in Hh as (h & z & -> & Hz & Hh). injection Hz as <-.
  apply fge_true_inv in Hi as (i & z & -> & Hz & Hi). injection Hz as <-.
  cbn [score_model fst fadd lift2].
  rewrite fdiv_Num by lra.
  apply fge_Num.
  apply Rmult_le_pos; [lra |].
  left. apply Rinv_0_lt_compat. lra.
Qed.

Lemma score_model_underpricing_nonneg_witness :
  fge (fst (fst (score_model (Num 0.05) (Num 0.07) (Num 0.01) (Num 0.1)))) (Num 0) = true.
Proof.
  apply (score_model_underpricing_nonneg (Num 0.05) (Num 0.07) (Num 0.01) (Num 0.1));
    apply fge_Num; lra.
Defined.

(** C8: for real skew and imbalance the tilt
    0.3*tanh(skew) + 0.2*tanh(imbalance) is strictly below 0.5 in absolute
    value, so the unclamped squeeze and cascade probabilities returned by
    the scoring function lie in [0, 1]. *)
Theorem score_model_tilt_bounded (im hm : float64) (skew oi : R) :
  Rabs (0.3 * tanh skew + 0.2 * tanh oi) < 0.5 /\
  exists squeeze cascade : R,
    score_model im hm (Num skew) (Num oi)
      = (fdiv hm (fadd im (Num 1e-6)), Num squeeze, Num cascade) /\
    0 <= squeeze <= 1 /\ 0 <= cascade <= 1.
Proof.
  pose proof (tanh_bounds skew) as Hs.
  pose proof (tanh_bounds oi) as Ho.
  split.
  - apply Rabs_def1; lra.
  - exists (0.5 + (0.3 * tanh skew + 0.2 * tanh oi)),
           (0.5 - (0.3 * tanh skew + 0.2 * tanh oi)).
    split; [reflexivity |]. lra.
Qed.

(** ** The series operations *)

Lemma argmin_from_spec (xs : list R) :
  forall (best_i : nat) (best : R) (i : nat),
    (argmin_from best_i best i (Num <$> xs) = best_i /\
     forall k x, xs !! k = Some x -> best <= x)
    \/
    (exists k x,
        argmin_from best_i best i (Num <$> xs) = (i + k)%nat /\
        xs !! k = Some x /\ x < best /\
        (forall k' x', xs !! k' = Some x' -> x <= x') /\
        (forall k' x', (k' < k)%nat -> xs !! k' = Some x' -> x < x')).
Proof.
  induction xs as [|y xs IH]; intros best_i best i.
  - left. split; [reflexivity |]. intros k x Hk. discriminate.
  - cbn [fmap list_fmap argmin_from].
    destruct (decide (y < best)) as [Hlt | Hge].
    + right. destruct (IH i y (S i)) as [[Heq Hall] | (k & x & Heq & Hk & Hx & Hmin & Hfirst)].
      * exists 0%nat, y. rewrite Heq, Nat.add_0_r.
        repeat split; auto.
        -- intros [|k'] x' Hk'; simpl in Hk'.
           ++ injection Hk' as <-. lra.
           ++ eauto.
        -- intros k' x' Hk'. lia.
      * exists (S k), x. rewrite Heq.
        repeat split; auto; try lia; try lra.
        -- intros [|k'] x' Hk'; simpl in Hk'.
           ++ injection Hk' as <-. lra.
           ++ eauto.
        -- intros [|k'] x' Hlt' Hk'; simpl in Hk'.
           ++ injection Hk' as <-. lra.
           ++ apply (Hfirst k'); [lia | done].
    + destruct (IH best_i best (S i)) as [[Heq Hall] | (k & x & Heq & Hk & Hx & Hmin & Hfirst)].
      * left. split; [done |].
        intros [|k'] x' Hk'; simpl in Hk'.
        -- injection Hk' as <-. lra.
        -- eauto.
      * right. exists (S k), x. rewrite Heq.
        repeat split; auto; try lia.
        -- intros [|k'] x' Hk'; simpl in Hk'.
           ++ injection Hk' as <-. lra.
           ++ eauto.
        -- intros [|k'] x' Hlt' Hk'; simpl in Hk'.
           ++ injection Hk' as <-. lra.
           ++ apply (Hfirst k'); [lia | done].
Qed.

(** On a non-empty column of numbers [idxmin] answers the first position of
    the least value. *)
Lemma idxmin_first_min (xs : list R) :
  xs <> [] ->
  exists i x,
    idxmin (Num <$> xs) = Ok i /\
    xs !! i = Some x /\
    (forall j y, xs !! j = Some y -> x <= y) /\
    (forall j y, (j < i)%nat -> xs !! j = Some y -> x < y).
Proof.
  destruct xs as [|x0 xs]; [done | intros _].
  unfold idxmin. cbn [fmap list_fmap first_valid_argmin].
  destruct (argmin_from_spec xs 0%nat x0 1%nat)
    as [[Heq Hall] | (k & x & Heq & Hk & Hx & Hmin & Hfirst)].
  - exists 0%nat, x0. rewrite Heq. repeat split; auto.
    + intros [|j] y Hj; simpl in Hj.
      * injection Hj as <-. lra.
      * eauto.
    + intros j y Hlt. lia.
  - exists (S k), x. rewrite Heq. repeat split; auto.
    + intros [|j] y Hj; simpl in Hj.
      * injection Hj as <-. lra.
      * eauto.
    + intros [|j] y Hlt Hj; simpl in Hj.
      * injection Hj as <-. lra.
      * apply (Hfirst j); [lia | done].
Qed.

Lemma idxmin_nil : idxmin [] = Raise ValueError.
Proof. reflexivity. Qed.

Lemma dist_column (spot : R) (strikes : list R) :
  series_abs (series_sub_scalar (Num <$> strikes) (Num spot))
  = Num <$> ((fun k => Rabs (k - spot)) <$> strikes).
Proof.
  unfold series_abs, series_sub_scalar.
  induction strikes as [|k ks IH]; [reflexivity |].
  cbn. f_equal. exact IH.
Qed.

(** ** The implied-move estimator *)

Lemma frame_loc_lookup (df : gmap string (list float64)) (i : nat) (col : string) :
  frame_loc df i !! col = df !! col ≫= (fun s => s !! i).
Proof. unfold frame_loc. apply lookup_omap. Qed.

Lemma at_the_money_of_first_min (spot : R) (strikes : list R) (i : nat) (d : R) :
  ((fun k => Rabs (k - spot)) <$> strikes) !! i = Some d ->
  (forall j y, ((fun k => Rabs (k - spot)) <$> strikes) !! j = Some y -> d <= y) ->
  (forall j y, (j < i)%nat -> ((fun k => Rabs (k - spot)) <$> strikes) !! j = Some y -> d < y) ->
  at_the_money spot strikes i.
Proof.
  intros Hi Hmin Hfirst.
  rewrite list_lookup_fmap in Hi.
  destruct (strikes !! i) as [k_i|] eqn:Hk; [|discriminate].
  injection Hi as <-.
  exists k_i. split; [done |]. split.
  - intros j k_j Hj. apply (Hmin j). rewrite list_lookup_fmap, Hj. reflexivity.
  - intros j k_j Hlt Hj. apply (Hfirst j); [done |]. rewrite list_lookup_fmap, Hj. reflexivity.
Qed.

Ltac unfold_extractor :=
  unfold implied_move, skew_proxy, oi_imbalance, mbind, M_bind, getitem, setitem,
    loc, lift_result, mret, M_ret, frame_of, frame_getitem, frame_setitem.

(** The value and the final chain of [implied_move] when nothing raises. *)
Lemma implied_move_value
    (spot : float64) (st : chains) (call_strike put_strike : list float64)
    (i j : nat) (call_price put_price : float64) :
  calls st !! "strike" = Some call_strike ->
  puts st !! "strike" = Some put_strike ->
  idxmin (series_abs (series_sub_scalar call_strike spot)) = Ok i ->
  idxmin (series_abs (series_sub_scalar put_strike spot)) = Ok j ->
  calls st !! "lastPrice" ≫= (fun s => s !! i) = Some call_price ->
  puts st !! "lastPrice" ≫= (fun s => s !! j) = Some put_price ->
  implied_move spot st
  = (Ok (fdiv (fadd call_price put_price) spot),
     Chains (<["dist" := series_abs (series_sub_scalar call_strike spot)]> (calls st))
            (<["dist" := series_abs (series_sub_scalar put_strike spot)]> (puts st))).
Proof.
  intros Hcs Hps Hi Hj Hci Hpj.
  destruct st as [c p]. cbn [calls puts] in *.
  unfold_extractor. unfold row_getitem. cbn [calls puts]. rewrite Hcs, Hps.
  rewrite !lookup_insert_eq, Hi, Hj.
  rewrite !frame_loc_lookup, !lookup_insert_ne by done.
  rewrite Hci, Hpj. reflexivity.
Qed.

Lemma skew_proxy_value (st : chains) (call_iv put_iv : list float64) :
  calls st !! "impliedVolatility" = Some call_iv ->
  puts st !! "impliedVolatility" = Some put_iv ->
  skew_proxy st = (Ok (fsub (series_mean put_iv) (series_mean call_iv)), st).
Proof.
  intros Hc Hp.
  unfold skew_proxy, mbind, M_bind, getitem, mret, M_ret, frame_of, frame_getitem.
  by rewrite Hp, Hc.
Qed.

Lemma oi_imbalance_value (st : chains) (call_column put_column : list float64) :
  calls st !! "openInterest" = Some call_column ->
  puts st !! "openInterest" = Some put_column ->
  oi_imbalance st
  = (Ok (fdiv (fsub (series_sum call_column) (series_sum put_column))
              (fadd (fadd (series_sum call_column) (series_sum put_column)) (Num 1))),
     st).
Proof.
  intros Hc Hp.
  unfold oi_imbalance, mbind, M_bind, getitem, mret, M_ret, frame_of, frame_getitem.
  by rewrite Hc, Hp.
Qed.

(** C7: on non-empty call and put chains the estimator picks, on each side
    separately, the row whose strike is nearest to the spot, the earliest
    such row when several are equally near, and answers
    (atm_call_price + atm_put_price) / spot. *)
Theorem implied_move_at_the_money
    (spot : R) (st : chains)
    (call_strikes put_strikes : list R) (call_prices put_prices : list float64) :
  calls st !! "strike" = Some (Num <$> call_strikes) ->
  calls st !! "lastPrice" = Some call_prices ->
  length call_prices = length call_strikes ->
  call_strikes <> [] ->
  puts st !! "strike" = Some (Num <$> put_strikes) ->
  puts st !! "lastPrice" = Some put_prices ->
  length put_prices = length put_strikes ->
  put_strikes <> [] ->
  exists (i j : nat) (atm_call_price atm_put_price : float64),
    at_the_money spot call_strikes i /\
    at_the_money spot put_strikes j /\
    call_prices !! i = Some atm_call_price /\
    put_prices !! j = Some atm_put_price /\
    fst (implied_move (Num spot) st)
      = Ok (fdiv (fadd atm_call_price atm_put_price) (Num spot)).
Proof.
  intros Hcs Hcp Hcl Hcne Hps Hpp Hpl Hpne.
  destruct (idxmin_first_min ((fun k => Rabs (k - spot)) <$> call_strikes))
    as (i & di & Hi & Hdi & Himin & Hifirst).
  { destruct call_strikes; [done | discriminate]. }
  destruct (idxmin_first_min ((fun k => Rabs (k - spot)) <$> put_strikes))
    as (j & dj & Hj & Hdj & Hjmin & Hjfirst).
  { destruct put_strikes; [done | discriminate]. }
  assert (is_Some (call_prices !! i)) as [ci Hci].
  { apply lookup_lt_is_Some. rewrite Hcl.
    apply lookup_lt_Some in Hdi. by rewrite length_fmap in Hdi. }
  assert (is_Some (put_prices !! j)) as [pj Hpj].
  { apply lookup_lt_is_Some. rewrite Hpl.
    apply lookup_lt_Some in Hdj. by rewrite length_fmap in Hdj. }
  exists i, j, ci, pj.
  split; [eapply at_the_money_of_first_min; eauto |].
  split; [eapply at_the_money_of_first_min; eauto |].
  split; [done |]. split; [done |].
  rewrite (implied_move_value (Num spot) st (Num <$> call_strikes) (Num <$> put_strikes)
             i j ci pj); [reflexivity | try done ..].
  - by rewrite dist_column.
  - by rewrite dist_column.
  - by rewrite Hcp.
  - by rewrite Hpp.
Qed.

Lemma implied_move_at_the_money_witness :
  exists (i j : nat) (atm_call_price atm_put_price : float64),
    at_the_money 100 [90; 95; 105; 110] i /\
    at_the_money 100 [90; 95; 105; 110] j /\
    [Num 11; Num 3; Num 1; Num 0.5] !! i = Some atm_call_price /\
    [Num 0.4; Num 2; Num 6; Num 10.5] !! j = Some atm_put_price /\
    fst (implied_move (Num 100) Sample.chain_abc)
      = Ok (fdiv (fadd atm_call_price atm_put_price) (Num 100)).
Proof.
  apply (implied_move_at_the_money 100 Sample.chain_abc
           [90; 95; 105; 110] [90; 95; 105; 110]
           [Num 11; Num 3; Num 1; Num 0.5] [Num 0.4; Num 2; Num 6; Num 10.5]);
    first [reflexivity | discriminate].
Defined.

(** ** The open-interest imbalance *)

Lemma imbalance_bounds (c p : R) :
  0 <= c -> 0 <= p -> -1 < (c - p) / (c + p + 1) < 1.
Proof.
  intros Hc Hp.
  assert (0 < c + p + 1) as Hd by lra.
  split.
  - apply Rmult_lt_reg_r with (c + p + 1); [done |].
    unfold Rdiv. rewrite Rmult_assoc, Rinv_l by lra. lra.
  - apply Rmult_lt_reg_r with (c + p + 1); [done |].
    unfold Rdiv. rewrite Rmult_assoc, Rinv_l by lra. lra.
Qed.

(** C6: with non-negative totals of call and put open interest the
    imbalance is (call_oi - put_oi) / (call_oi + put_oi + 1), a number
    strictly between -1 and 1. *)
Theorem oi_imbalance_open_interval
    (st : chains) (call_column put_column : list float64) (call_oi put_oi : R) :
  calls st !! "openInterest" = Some call_column ->
  puts st !! "openInterest" = Some put_column ->
  series_sum call_column = Num call_oi ->
  series_sum put_column = Num put_oi ->
  0 <= call_oi ->
  0 <= put_oi ->
  fst (oi_imbalance st) = Ok (Num ((call_oi - put_oi) / (call_oi + put_oi + 1))) /\
  -1 < (call_oi - put_oi) / (call_oi + put_oi + 1) < 1.
Proof.
  intros Hc Hp Hcs Hps Hc0 Hp0.
  split; [| by apply imbalance_bounds].
  unfold oi_imbalance, mbind, M_bind, getitem, mret, M_ret, frame_of, frame_getitem.
  rewrite Hc, Hp. cbn [fst].
  rewrite Hcs, Hps. cbn [fadd fsub lift2].
  rewrite fdiv_Num by lra. reflexivity.
Qed.

Lemma oi_imbalance_open_interval_witness :
  fst (oi_imbalance Sample.chain_abc) = Ok (Num ((5 - 4) / (5 + 4 + 1))) /\
  -1 < (5 - 4) / (5 + 4 + 1) < 1.
Proof.
  apply (oi_imbalance_open_interval Sample.chain_abc
           [Num 1; Num 2; Num 1; Num 1] [Num 1; Num 1; Num 1; Num 1] 5 4);
    try reflexivity; try lra.
  - unfold series_sum. simpl. f_equal. lra.
  - unfold series_sum. simpl. f_equal. lra.
Defined.

(** ** What the extractors do to the fetched chain *)

(** The chain [implied_move] leaves behind, by the place where it stops. *)
Lemma implied_move_final_state (spot : float64) (st : chains) :
  snd (implied_move spot st) =
    match calls st !! "strike" with
    | None => st
    | Some call_strike =>
        let calls' := <["dist" := series_abs (series_sub_scalar call_strike spot)]> (calls st) in
        match puts st !! "strike" with
        | None => Chains calls' (puts st)
        | Some put_strike =>
            Chains calls'
              (<["dist" := series_abs (series_sub_scalar put_strike spot)]> (puts st))
        end
    end.
Proof.
  destruct st as [c p]. unfold_extractor. cbn [calls puts].
  destruct (c !! "strike") as [cs|]; [|reflexivity].
  destruct (p !! "strike") as [ps|]; [|reflexivity].
  rewrite !lookup_insert_eq.
  destruct (idxmin _); [|reflexivity].
  destruct (idxmin _); [|reflexivity].
  destruct (row_getitem _ _); [|reflexivity].
  destruct (row_getitem _ _); reflexivity.
Qed.

Lemma skew_proxy_state (st : chains) : snd (skew_proxy st) = st.
Proof.
  unfold_extractor.
  destruct (puts st !! "impliedVolatility"); [|reflexivity].
  destruct (calls st !! "impliedVolatility"); reflexivity.
Qed.

Lemma oi_imbalance_state (st : chains) : snd (oi_imbalance st) = st.
Proof.
  unfold_extractor.
  destruct (calls st !! "openInterest"); [|reflexivity].
  destruct (puts st !! "openInterest"); reflexivity.
Qed.

Lemma delete_dist_insert (df : gmap string (list float64)) (s : list float64) :
  delete "dist" (<["dist" := s]> df) = delete "dist" df.
Proof. apply delete_insert_eq. Qed.

(** C9, as the code has it: the implied-move estimator writes into the
    frames it is handed.  When both frames have a strike column, the call
    frame it leaves behind is the fetched call frame with the column "dist"
    set to |strike - spot|, and the put frame likewise, whether the estimator
    then returns or raises; with no strike column in the call frame nothing
    is written, and with none in the put frame only the call frame gets its
    "dist" column.  No other column of either frame is changed.  The skew
    proxy and the open-interest imbalance leave both frames as they are, and
    read the same values after the implied-move estimator has run as
    before. *)
Theorem extractors_frame (spot : float64) (st : chains) :
  (forall call_strike put_strike,
      calls st !! "strike" = Some call_strike ->
      puts st !! "strike" = Some put_strike ->
      calls (snd (implied_move spot st))
        = <["dist" := series_abs (series_sub_scalar call_strike spot)]> (calls st) /\
      puts (snd (implied_move spot st))
        = <["dist" := series_abs (series_sub_scalar put_strike spot)]> (puts st)) /\
  (forall call_strike,
      calls st !! "strike" = Some call_strike ->
      puts st !! "strike" = None ->
      calls (snd (implied_move spot st))
        = <["dist" := series_abs (series_sub_scalar call_strike spot)]> (calls st) /\
      puts (snd (implied_move spot st)) = puts st) /\
  (calls st !! "strike" = None -> snd (implied_move spot st) = st) /\
  delete "dist" (calls (snd (implied_move spot st))) = delete "dist" (calls st) /\
  delete "dist" (puts (snd (implied_move spot st))) = delete "dist" (puts st) /\
  snd (skew_proxy st) = st /\
  snd (oi_imbalance st) = st /\
  fst (skew_proxy (snd (implied_move spot st))) = fst (skew_proxy st) /\
  fst (oi_imbalance (snd (implied_move spot st))) = fst (oi_imbalance st).
Proof.
  assert (forall col, col <> "dist" ->
            calls (snd (implied_move spot st)) !! col = calls st !! col /\
            puts (snd (implied_move spot st)) !! col = puts st !! col) as Hother.
  { intros col Hcol. rewrite implied_move_final_state.
    destruct (calls st !! "strike"); [|done].
    destruct (puts st !! "strike"); cbn [calls puts];
      rewrite ?lookup_insert_ne by done; done. }
  split; [| split; [| split]].
  - intros cs ps Hcs Hps. rewrite implied_move_final_state, Hcs, Hps. done.
  - intros cs Hcs Hps. rewrite implied_move_final_state, Hcs, Hps. done.
  - intros Hcs. rewrite implied_move_final_state, Hcs. done.
  - repeat split.
    + rewrite implied_move_final_state.
      destruct (calls st !! "strike"); [|done].
      destruct (puts st !! "strike"); cbn [calls]; apply delete_dist_insert.
    + rewrite implied_move_final_state.
      destruct (calls st !! "strike"); [|done].
      destruct (puts st !! "strike"); cbn [puts]; [apply delete_dist_insert | done].
    + apply skew_proxy_state.
    + apply oi_imbalance_state.
    + unfold skew_proxy, mbind, M_bind, getitem, mret, M_ret, frame_of, frame_getitem.
      destruct (Hother "impliedVolatility") as [-> ->]; [done |].
      destruct (puts st !! "impliedVolatility"); [|done].
      destruct (calls st !! "impliedVolatility"); done.
    + unfold oi_imbalance, mbind, M_bind, getitem, mret, M_ret, frame_of, frame_getitem.
      destruct (Hother "openInterest") as [-> ->]; [done |].
      destruct (calls st !! "openInterest"); [|done].
      destruct (puts st !! "openInterest"); done.
Qed.

Lemma extractors_frame_witness :
  calls (snd (implied_move (Num 100) Sample.chain_abc))
    = <["dist" := series_abs (series_sub_scalar [Num 90; Num 95; Num 105; Num 110] (Num 100))]>
        Sample.calls_abc /\
  puts (snd (implied_move (Num 100) Sample.chain_abc))
    = <["dist" := series_abs (series_sub_scalar [Num 90; Num 95; Num 105; Num 110] (Num 100))]>
        Sample.puts_abc.
Proof.
  apply (proj1 (extractors_frame (Num 100) Sample.chain_abc)); reflexivity.
Defined.

(** C9, as stated, fails: on the sample chain the implied-move estimator
    returns with a call frame and a put frame that each have a column the
    fetched frame had not. *)
Lemma implied_move_mutates_chain :
  calls Sample.chain_abc !! "dist" = None /\
  puts Sample.chain_abc !! "dist" = None /\
  is_Some (calls (snd (implied_move (Num 100) Sample.chain_abc)) !! "dist") /\
  is_Some (puts (snd (implied_move (Num 100) Sample.chain_abc)) !! "dist") /\
  snd (implied_move (Num 100) Sample.chain_abc) <> Sample.chain_abc.
Proof.
  assert (is_Some (calls (snd (implied_move (Num 100) Sample.chain_abc)) !! "dist")) as Hs.
  { rewrite implied_move_final_state. cbn. eexists. reflexivity. }
  assert (is_Some (puts (snd (implied_move (Num 100) Sample.chain_abc)) !! "dist")) as Hp.
  { rewrite implied_move_final_state. cbn. eexists. reflexivity. }
  split; [reflexivity |]. split; [reflexivity |].
  split; [exact Hs |]. split; [exact Hp |].
  intros Heq. rewrite Heq in Hs. destruct Hs as [s Hs]. discriminate.
Qed.

(** ** The monad of extractors *)

Lemma M_bind_ok {A B : Type} (m : M A) (f : A -> M B) (st st' : chains) (a : A) :
  m st = (Ok a, st') -> (m ≫= f) st = f a st'.
Proof. intros H. unfold mbind, M_bind. rewrite H. reflexivity. Qed.

Lemma M_bind_raise {A B : Type} (m : M A) (f : A -> M B) (st : chains) (e : exn) :
  fst (m st) = Raise e -> fst ((m ≫= f) st) = Raise e.
Proof.
  intros H. unfold mbind, M_bind.
  destruct (m st) as [[a|e'] st']; simpl in *; congruence.
Qed.

Lemma implied_move_empty_side (spot : float64) (st : chains) :
  empty_frame (calls st) \/ empty_frame (puts st) ->
  exists e, fst (implied_move spot st) = Raise e.
Proof.
  intros Hempty. destruct st as [c p]. cbn [calls puts] in Hempty.
  unfold_extractor. cbn [calls puts].
  destruct (c !! "strike") as [cs|] eqn:Hc; [|by eexists].
  destruct (p !! "strike") as [ps|] eqn:Hp; [|by eexists].
  rewrite !lookup_insert_eq.
  destruct Hempty as [Hempty | Hempty].
  - apply Hempty in Hc as ->. cbn. by eexists.
  - apply Hempty in Hp as ->.
    destruct (idxmin (series_abs (series_sub_scalar cs spot))); cbn; by eexists.
Qed.

(** ** The scan loop *)

Section Scan.

Variable yf : Provider.
Variable TODAY : date.
Variables min_underpricing min_prob : float64.

Lemma reports_today_true (ticker : string) :
  reports_today yf TODAY ticker = true <-> earnings_today yf TODAY ticker.
Proof.
  unfold reports_today, reports_today_try, earnings_today, try_except.
  split.
  - destruct (calendar yf ticker) as [[cal|]|e]; cbn; try discriminate.
    destruct (empty cal) as [[|]|e] eqn:He; cbn; try discriminate.
    destruct (earnings_date cal) as [d|e] eqn:Hd; cbn; try discriminate.
    intros H. apply bool_decide_eq_true in H as ->. eauto.
  - intros (cal & -> & He & Hd). cbn. rewrite He. cbn. rewrite Hd. cbn.
    by apply bool_decide_eq_true.
Qed.

Lemma scan_ticker_skip_not_reporting (results : list ResultRow) (ticker : string) :
  reports_today yf TODAY ticker = false ->
  scan_ticker yf TODAY min_underpricing min_prob results ticker = Ok results.
Proof. intros H. unfold scan_ticker. rewrite H. reflexivity. Qed.

(** One iteration appends at most one row, a row of its own ticker, and
    whether it does is independent of the rows collected before. *)
Lemma scan_ticker_append (results : list ResultRow) (ticker : string) :
  scan_ticker yf TODAY min_underpricing min_prob results ticker =
    match scan_ticker yf TODAY min_underpricing min_prob [] ticker with
    | Ok new => Ok (results ++ new)
    | Raise e => Raise e
    end.
Proof.
  unfold scan_ticker.
  destruct (reports_today yf TODAY ticker); [|by rewrite app_nil_r].
  destruct (get_options_data yf ticker) as [[[[spot expiry] c] p]|]; [|by rewrite app_nil_r].
  unfold mbind, M_bind.
  destruct (implied_move spot _) as [[im|e] st1]; [|done].
  destruct (skew_proxy st1) as [[skew|e] st2]; [|done].
  destruct (oi_imbalance st2) as [[oi|e] st3]; [|done].
  destruct (score_model _ _ _ _) as [[u s] cs].
  destruct (accepted _ _ _ _ _); cbn; [done | by rewrite app_nil_r].
Qed.

(** The iteration of a ticker that reports today and whose chain yields the
    three chain metrics. *)
Lemma scan_ticker_scored
    (results : list ResultRow) (ticker : string) (spot : float64) (expiry : string)
    (c p : gmap string (list float64)) (im skew oi : float64) (st1 st2 st3 : chains) :
  reports_today yf TODAY ticker = true ->
  get_options_data yf ticker = Some (spot, expiry, c, p) ->
  implied_move spot (Chains c p) = (Ok im, st1) ->
  skew_proxy st1 = (Ok skew, st2) ->
  oi_imbalance st2 = (Ok oi, st3) ->
  scan_ticker yf TODAY min_underpricing min_prob results ticker =
    let hm := hist_move yf ticker in
    let '(underpricing, squeeze, cascade) := score_model im hm skew oi in
    if accepted min_underpricing min_prob underpricing squeeze cascade then
      Ok (results ++
        [{| Ticker := ticker;
            Spot := round_ndigits spot 2;
            Implied_Move_pct := round_ndigits (im * Num 100)%f64 2;
            Hist_Avg_Move_pct := round_ndigits (hm * Num 100)%f64 2;
            Underpricing := round_ndigits underpricing 2;
            Squeeze_Prob := round_ndigits squeeze 2;
            Cascade_Prob := round_ndigits cascade 2 |}])
    else Ok results.
Proof.
  intros Hrep Hdata Him Hskew Hoi.
  unfold scan_ticker. rewrite Hrep, Hdata.
  rewrite (M_bind_ok _ _ _ _ _ Him).
  rewrite (M_bind_ok _ _ _ _ _ Hskew).
  rewrite (M_bind_ok _ _ _ _ _ Hoi).
  cbv zeta.
  destruct (score_model _ _ _ _) as [[u s] cs].
  destruct (accepted _ _ _ _ _); reflexivity.
Qed.

Lemma scan_ticker_new_rows (ticker : string) (new : list ResultRow) :
  scan_ticker yf TODAY min_underpricing min_prob [] ticker = Ok new ->
  new = [] \/ exists row, new = [row] /\ Ticker row = ticker /\ reports_today yf TODAY ticker = true.
Proof.
  unfold scan_ticker.
  destruct (reports_today yf TODAY ticker); [|intros [= <-]; by left].
  destruct (get_options_data yf ticker) as [[[[spot expiry] c] p]|]; [|intros [= <-]; by left].
  unfold mbind, M_bind.
  destruct (implied_move spot _) as [[im|e] st1]; [|done].
  destruct (skew_proxy st1) as [[skew|e] st2]; [|done].
  destruct (oi_imbalance st2) as [[oi|e] st3]; [|done].
  destruct (score_model _ _ _ _) as [[u s] cs].
  destruct (accepted _ _ _ _ _); cbn; intros [= <-]; [right | by left].
  eexists. split; [reflexivity |]. done.
Qed.

(** Every row of a completed scan was appended by the iteration of its own
    ticker. *)
Lemma scan_loop_rows (universe : list string) :
  forall results results' row,
    scan_loop yf TODAY min_underpricing min_prob results universe = Ok results' ->
    row ∈ results' ->
    row ∈ results \/
    (Ticker row ∈ universe /\ scan_ticker yf TODAY min_underpricing min_prob [] (Ticker row) = Ok [row]).
Proof.
  induction universe as [|ticker universe IH]; intros results results' row Hscan Hin.
  - injection Hscan as <-. by left.
  - cbn [scan_loop] in Hscan.
    rewrite scan_ticker_append in Hscan.
    destruct (scan_ticker yf TODAY min_underpricing min_prob [] ticker) as [new|e] eqn:Hnew; [|discriminate].
    cbn in Hscan.
    destruct (IH _ _ _ Hscan Hin) as [Hold | [Hu Hrow]].
    + apply elem_of_app in Hold as [Hold | Hold]; [by left |].
      right. apply scan_ticker_new_rows in Hnew as Hcases.
      destruct Hcases as [-> | (row' & -> & Ht & _)].
      * by apply elem_of_nil in Hold.
      * apply list_elem_of_singleton in Hold as ->.
        rewrite Ht. split; [left | done].
    + right. split; [by right | done].
Qed.

Lemma scan_loop_raises (universe : list string) (ticker : string) :
  ticker ∈ universe ->
  (exists e, scan_ticker yf TODAY min_underpricing min_prob [] ticker = Raise e) ->
  forall results, exists e, scan_loop yf TODAY min_underpricing min_prob results universe = Raise e.
Proof.
  intros Hin [e He].
  induction universe as [|t universe IH]; intros results.
  - by apply elem_of_nil in Hin.
  - cbn [scan_loop]. rewrite scan_ticker_append.
    apply elem_of_cons in Hin as [<- | Hin].
    + rewrite He. by eexists.
    + destruct (scan_ticker yf TODAY min_underpricing min_prob [] t) as [new|e']; cbn; [by apply IH | by eexists].
Qed.

End Scan.

(** ** The scan loop: claims *)

Section ScanClaims.

Variable yf : Provider.
Variable TODAY : date.
Variables min_underpricing min_prob : float64.

(** C5: when the earnings-date lookup of a ticker fails in any way, or
    answers a date other than today, the earnings-date filter answers
    false, no error escapes it, the iteration for that ticker leaves the
    results as they are, and no row of the scan carries that ticker. *)
Theorem not_reporting_never_listed (ticker : string) :
  ~ earnings_today yf TODAY ticker ->
  reports_today yf TODAY ticker = false /\
  (forall results,
      scan_ticker yf TODAY min_underpricing min_prob results ticker = Ok results) /\
  (forall universe results,
      scan yf TODAY min_underpricing min_prob universe = Ok results ->
      ticker ∉ Ticker <$> results).
Proof.
  intros Hnot.
  assert (reports_today yf TODAY ticker = false) as Hfalse.
  { destruct (reports_today yf TODAY ticker) eqn:H; [|done].
    apply reports_today_true in H. contradiction. }
  split; [done |]. split.
  - intros results. by apply scan_ticker_skip_not_reporting.
  - intros universe results Hscan Hin.
    apply list_elem_of_fmap in Hin as (row & -> & Hrow).
    destruct (scan_loop_rows _ _ _ _ _ _ _ _ Hscan Hrow) as [Hnil | [_ Hnew]].
    + by apply elem_of_nil in Hnil.
    + rewrite scan_ticker_skip_not_reporting in Hnew by done. discriminate.
Qed.

(** C10: when the historical move of a ticker is not-a-number, the
    underpricing computed from it is not-a-number, the test
    underpricing >= min_underpricing is false, the iteration for that
    ticker ends without an error and leaves the results as they are, and
    no row of the scan carries that ticker. *)
Theorem hist_move_nan_excluded
    (ticker : string) (spot : float64) (expiry : string)
    (c p : gmap string (list float64))
    (im skew oi : float64) (st1 st2 st3 : chains) :
  get_options_data yf ticker = Some (spot, expiry, c, p) ->
  implied_move spot (Chains c p) = (Ok im, st1) ->
  hist_move yf ticker = NaN ->
  skew_proxy st1 = (Ok skew, st2) ->
  oi_imbalance st2 = (Ok oi, st3) ->
  fst (fst (score_model im (hist_move yf ticker) skew oi)) = NaN /\
  fge (fst (fst (score_model im (hist_move yf ticker) skew oi))) min_underpricing = false /\
  (forall results,
      scan_ticker yf TODAY min_underpricing min_prob results ticker = Ok results) /\
  (forall universe results,
      scan yf TODAY min_underpricing min_prob universe = Ok results ->
      ticker ∉ Ticker <$> results).
Proof.
  intros Hdata Him Hhm Hskew Hoi.
  assert (forall results,
            scan_ticker yf TODAY min_underpricing min_prob results ticker = Ok results)
    as Hskip.
  { intros results. unfold scan_ticker.
    destruct (reports_today yf TODAY ticker); [|done].
    rewrite Hdata.
    rewrite (M_bind_ok _ _ _ _ _ Him).
    rewrite (M_bind_ok _ _ _ _ _ Hskew).
    rewrite (M_bind_ok _ _ _ _ _ Hoi).
    rewrite Hhm. reflexivity. }
  rewrite Hhm. repeat split; [done |].
  intros universe results Hscan Hin.
  apply list_elem_of_fmap in Hin as (row & -> & Hrow).
  destruct (scan_loop_rows _ _ _ _ _ _ _ _ Hscan Hrow) as [Hnil | [_ Hnew]].
  - by apply elem_of_nil in Hnil.
  - rewrite Hskip in Hnew. discriminate.
Qed.

(** C4, as the code has it: a ticker that reports today and whose fetched
    chain has no calls or no puts is not skipped; the implied-move
    estimator raises on it and the exception ends the scan. *)
Theorem empty_chain_aborts_scan
    (universe : list string) (ticker : string) (spot : float64) (expiry : string)
    (c p : gmap string (list float64)) :
  ticker ∈ universe ->
  reports_today yf TODAY ticker = true ->
  get_options_data yf ticker = Some (spot, expiry, c, p) ->
  empty_frame c \/ empty_frame p ->
  exists e, scan yf TODAY min_underpricing min_prob universe = Raise e.
Proof.
  intros Hin Hrep Hdata Hempty.
  apply scan_loop_raises with ticker; [done |].
  destruct (implied_move_empty_side spot (Chains c p) Hempty) as [e He].
  exists e. unfold scan_ticker. rewrite Hrep, Hdata.
  by apply M_bind_raise.
Qed.

End ScanClaims.

(** ** The scan on the sample provider *)

(** Settles the comparisons of concrete reals that an evaluation of
    [idxmin] leaves behind. *)
Ltac settle_comparisons :=
  repeat match goal with
  | |- context [decide (?a < ?b)] =>
      first
        [ rewrite (decide_True (P := a < b))
            by (unfold Rabs; repeat destruct (Rcase_abs _); lra)
        | rewrite (decide_False (P := a < b))
            by (unfold Rabs; repeat destruct (Rcase_abs _); lra) ]
  end.

Lemma sample_options_data (ticker : string) :
  ticker <> "EMP" ->
  get_options_data Sample.yf ticker
  = Some (Num 100, "2026-11-20", Sample.calls_abc, Sample.puts_abc).
Proof.
  intros Hne. unfold get_options_data, get_options_data_try. cbn.
  destruct (decide (ticker = "EMP")); [contradiction | reflexivity].
Qed.

(** On the sample chain the rows at strike 95 are at the money (label 1,
    ahead of the equally near strike 105), so the implied move is
    (3 + 2) / 100. *)
Lemma sample_implied_move :
  implied_move (Num 100) Sample.chain_abc
  = (Ok (fdiv (fadd (Num 3) (Num 2)) (Num 100)),
     Chains
       (<["dist" := series_abs (series_sub_scalar [Num 90; Num 95; Num 105; Num 110] (Num 100))]>
          Sample.calls_abc)
       (<["dist" := series_abs (series_sub_scalar [Num 90; Num 95; Num 105; Num 110] (Num 100))]>
          Sample.puts_abc)).
Proof.
  apply (implied_move_value (Num 100) Sample.chain_abc
           [Num 90; Num 95; Num 105; Num 110] [Num 90; Num 95; Num 105; Num 110]
           1%nat 1%nat (Num 3) (Num 2)); try reflexivity.
  - unfold idxmin. cbn. settle_comparisons. reflexivity.
  - unfold idxmin. cbn. settle_comparisons. reflexivity.
Qed.

Lemma not_reporting_never_listed_witness :
  reports_today Sample.yf Sample.today "XYZ" = false /\
  (forall results,
      scan_ticker Sample.yf Sample.today (Num 1) (Num 0.5) results "XYZ" = Ok results) /\
  (forall universe results,
      scan Sample.yf Sample.today (Num 1) (Num 0.5) universe = Ok results ->
      "XYZ" ∉ Ticker <$> results).
Proof.
  apply (not_reporting_never_listed Sample.yf Sample.today (Num 1) (Num 0.5) "XYZ").
  intros (cal & Hcal & _). vm_compute in Hcal. discriminate Hcal.
Defined.

(** A ticker that reports tomorrow is filtered out as well. *)
Example reports_tomorrow_skipped :
  reports_today Sample.yf Sample.today "LTR" = false /\
  scan Sample.yf Sample.today (Num 1) (Num 0.5) ["LTR"; "XYZ"] = Ok [].
Proof. split; reflexivity. Qed.

Lemma hist_move_nan_excluded_witness :
  hist_move Sample.yf "NOH" = NaN /\
  (forall results,
      scan_ticker Sample.yf Sample.today (Num 1) (Num 0.5) results "NOH" = Ok results) /\
  (forall universe results,
      scan Sample.yf Sample.today (Num 1) (Num 0.5) universe = Ok results ->
      "NOH" ∉ Ticker <$> results).
Proof.
  split; [reflexivity |].
  eapply (hist_move_nan_excluded Sample.yf Sample.today (Num 1) (Num 0.5) "NOH"
           (Num 100) "2026-11-20" Sample.calls_abc Sample.puts_abc
           (fdiv (fadd (Num 3) (Num 2)) (Num 100))
           (fsub (series_mean [Num 0.32; Num 0.30; Num 0.29; Num 0.29])
                 (series_mean [Num 0.31; Num 0.29; Num 0.28; Num 0.28]))
           (fdiv (fsub (series_sum [Num 1; Num 2; Num 1; Num 1])
                       (series_sum [Num 1; Num 1; Num 1; Num 1]))
                 (fadd (fadd (series_sum [Num 1; Num 2; Num 1; Num 1])
                             (series_sum [Num 1; Num 1; Num 1; Num 1])) (Num 1)))
           _ _ _).
  - apply sample_options_data. discriminate.
  - exact sample_implied_move.
  - reflexivity.
  - apply skew_proxy_value; reflexivity.
  - apply oi_imbalance_value; reflexivity.
Defined.

Lemma empty_chain_aborts_scan_witness :
  exists e, scan Sample.yf Sample.today (Num 1) (Num 0.5) ["XYZ"; "EMP"; "ABC"] = Raise e.
Proof.
  apply (empty_chain_aborts_scan Sample.yf Sample.today (Num 1) (Num 0.5)
           ["XYZ"; "EMP"; "ABC"] "EMP" (Num 100) "2026-11-20" Sample.no_calls Sample.puts_abc).
  - apply list_elem_of_In. simpl. tauto.
  - reflexivity.
  - reflexivity.
  - left. intros col s Hcol. unfold Sample.no_calls in Hcol.
    repeat (apply lookup_insert_Some in Hcol as [[_ <-] | [_ Hcol]]; [reflexivity |]).
    rewrite lookup_empty in Hcol. discriminate.
Defined.

(** The scan that meets the ticker without calls stops with the error of
    [idxmin] on an empty column; nothing is ranked, the tickers after it are
    not reached. *)
Lemma scan_empty_calls_raises :
  scan Sample.yf Sample.today (Num 1) (Num 0.5) ["XYZ"; "EMP"; "ABC"] = Raise ValueError.
Proof. reflexivity. Qed.

(** ** The worked scenarios on the sample provider *)

Lemma rint_nearest (x : R) (n : Z) :
  IZR n - 1 / 2 < x < IZR n + 1 / 2 -> rint x = n.
Proof.
  intros Hx. unfold rint.
  destruct (Rle_lt_dec (IZR n) x) as [Hle | Hlt].
  - assert (Int_part x = n) as Hint.
    { symmetry. apply Int_part_spec. lra. }
    unfold frac_part. rewrite Hint.
    rewrite decide_True by lra. reflexivity.
  - assert (Int_part x = (n - 1)%Z) as Hint.
    { symmetry. apply Int_part_spec. rewrite minus_IZR. lra. }
    unfold frac_part. rewrite Hint, minus_IZR.
    rewrite decide_False by lra. rewrite decide_True by lra. lia.
Qed.

Lemma round_2_nearest (x : R) (n : Z) :
  IZR n - 1 / 2 < x * 100 < IZR n + 1 / 2 ->
  round_ndigits (Num x) 2 = Num (IZR n / 100).
Proof.
  intros Hx. unfold round_ndigits, lift1.
  replace (10 ^ 2) with 100 by (simpl; lra).
  by rewrite (rint_nearest _ n).
Qed.

Lemma div_le_div_cross (a b c d : R) :
  0 < b -> 0 < d -> a * d <= c * b -> a / b <= c / d.
Proof.
  intros Hb Hd H.
  apply Rmult_le_reg_r with (b * d); [nra |].
  replace (a / b * (b * d)) with (a * d) by (field; lra).
  replace (c / d * (b * d)) with (c * b) by (field; lra).
  exact H.
Qed.

(** An enclosure of [tanh] on [0, 1], from 1 + x <= exp x. *)
Lemma tanh_enclosure (x : R) :
  0 <= x <= 1 ->
  ((1 + x) ^ 2 - 1) / ((1 + x) ^ 2 + 1) <= tanh x
  <= (1 - (1 - x) ^ 2) / (1 + (1 - x) ^ 2).
Proof.
  intros Hx.
  pose proof (exp_pos x) as HE.
  pose proof (exp_pos (- x)) as Hu.
  pose proof (exp_ineq1_le x) as HE1.
  pose proof (exp_ineq1_le (- x)) as Hu1.
  assert (exp x * exp (- x) = 1) as Hprod.
  { rewrite <- exp_plus. replace (x + - x) with 0 by lra. apply exp_0. }
  unfold tanh, sinh, cosh.
  replace ((exp x - exp (- x)) / 2 / ((exp x + exp (- x)) / 2))
    with ((exp x - exp (- x)) / (exp x + exp (- x))) by (field; lra).
  set (E := exp x) in *. set (u := exp (- x)) in *.
  split; apply div_le_div_cross; try nra.
Qed.

(** The tilt of the scenario: skew 0.01 and imbalance 0.1 give about 0.0229. *)
Lemma scenario_tilt :
  0.021 < 0.3 * tanh 0.01 + 0.2 * tanh 0.1 < 0.0245.
Proof.
  pose proof (tanh_enclosure 0.01 ltac:(lra)) as [Hl1 Hu1].
  pose proof (tanh_enclosure 0.1 ltac:(lra)) as [Hl2 Hu2].
  assert (0.0099 <= ((1 + 0.01) ^ 2 - 1) / ((1 + 0.01) ^ 2 + 1)) as Ha.
  { apply Rmult_le_reg_r with ((1 + 0.01) ^ 2 + 1); [simpl; lra |].
    unfold Rdiv. rewrite Rmult_assoc, Rinv_l by (simpl; lra). simpl. lra. }
  assert ((1 - (1 - 0.01) ^ 2) / (1 + (1 - 0.01) ^ 2) <= 0.01006) as Hb.
  { apply Rmult_le_reg_r with (1 + (1 - 0.01) ^ 2); [simpl; lra |].
    unfold Rdiv. rewrite Rmult_assoc, Rinv_l by (simpl; lra). simpl. lra. }
  assert (0.095 <= ((1 + 0.1) ^ 2 - 1) / ((1 + 0.1) ^ 2 + 1)) as Hc.
  { apply Rmult_le_reg_r with ((1 + 0.1) ^ 2 + 1); [simpl; lra |].
    unfold Rdiv. rewrite Rmult_assoc, Rinv_l by (simpl; lra). simpl. lra. }
  assert ((1 - (1 - 0.1) ^ 2) / (1 + (1 - 0.1) ^ 2) <= 0.105) as Hd.
  { apply Rmult_le_reg_r with (1 + (1 - 0.1) ^ 2); [simpl; lra |].
    unfold Rdiv. rewrite Rmult_assoc, Rinv_l by (simpl; lra). simpl. lra. }
  lra.
Qed.

Lemma sample_hist_move (ticker : string) (close : R) :
  history Sample.yf ticker "2y" = Ok (Sample.closes [Num 100; Num close]) ->
  100 <= close ->
  hist_move Sample.yf ticker = Num (close / 100 - 1).
Proof.
  intros Hhist Hclose.
  unfold hist_move, hist_move_try. rewrite Hhist.
  unfold Sample.closes, frame_getitem, frame_setitem.
  cbn [mbind result_bind]. rewrite lookup_insert_eq. cbn [mbind result_bind].
  rewrite lookup_insert_eq. cbn [mbind result_bind try_except].
  unfold pct_change, shift1. cbn [removelast zip_with fdiv fsub lift2].
  rewrite decide_False by lra.
  unfold series_abs, series_mean. cbn. f_equal.
  rewrite Rabs_pos_eq by (apply Rmult_le_reg_r with 100; [lra |]; unfold Rdiv, Rminus;
    rewrite Rmult_plus_distr_r, Rmult_assoc, Rinv_l by lra; lra).
  lra.
Qed.

Lemma sample_reports_today (ticker : string) :
  ticker = "ABC" \/ ticker = "LOW" \/ ticker = "NOH" \/ ticker = "EMP" ->
  reports_today Sample.yf Sample.today ticker = true.
Proof.
  intros H. unfold reports_today, reports_today_try. cbn.
  rewrite decide_True by done. reflexivity.
Qed.

(** The metrics and the score of "ABC": implied move 0.05, historical move
    0.07, skew 0.01 and imbalance 0.1 -- the scenario of a ticker that passes
    both thresholds. *)
Lemma sample_scan_ticker (results : list ResultRow) (ticker : string) :
  ticker = "ABC" \/ ticker = "LOW" \/ ticker = "NOH" ->
  scan_ticker Sample.yf Sample.today (Num 1) (Num 0.5) results ticker =
    let hm := hist_move Sample.yf ticker in
    let '(underpricing, squeeze, cascade) := score_model (Num 0.05) hm (Num 0.01) (Num 0.1) in
    if accepted (Num 1) (Num 0.5) underpricing squeeze cascade then
      Ok (results ++
        [{| Ticker := ticker;
            Spot := round_ndigits (Num 100) 2;
            Implied_Move_pct := round_ndigits (Num 0.05 * Num 100)%f64 2;
            Hist_Avg_Move_pct := round_ndigits (hm * Num 100)%f64 2;
            Underpricing := round_ndigits underpricing 2;
            Squeeze_Prob := round_ndigits squeeze 2;
            Cascade_Prob := round_ndigits cascade 2 |}])
    else Ok results.
Proof.
  intros Hticker.
  apply (scan_ticker_scored Sample.yf Sample.today (Num 1) (Num 0.5) results ticker
           (Num 100) "2026-11-20" Sample.calls_abc Sample.puts_abc
           (Num 0.05) (Num 0.01) (Num 0.1)
           (snd (implied_move (Num 100) Sample.chain_abc))
           (snd (implied_move (Num 100) Sample.chain_abc))
           (snd (implied_move (Num 100) Sample.chain_abc))).
  - apply sample_reports_today. tauto.
  - apply sample_options_data. destruct Hticker as [-> | [-> | ->]]; discriminate.
  - change (Chains Sample.calls_abc Sample.puts_abc) with Sample.chain_abc.
    rewrite sample_implied_move. cbn [snd fadd lift2].
    rewrite fdiv_Num by lra. do 3 f_equal. lra.
  - rewrite sample_implied_move. cbn [snd].
    erewrite skew_proxy_value by reflexivity.
    unfold series_mean. cbn. do 3 f_equal. lra.
  - rewrite sample_implied_move. cbn [snd].
    erewrite oi_imbalance_value by reflexivity.
    unfold series_sum, Rsum. cbn [dropna foldr fadd fsub lift2].
    rewrite fdiv_Num by lra. do 3 f_equal. lra.
Qed.

Lemma sample_score (hm : R) :
  score_model (Num 0.05) (Num hm) (Num 0.01) (Num 0.1)
  = (Num (hm / (0.05 + 1e-6)),
     Num (0.5 + (0.3 * tanh 0.01 + 0.2 * tanh 0.1)),
     Num (0.5 - (0.3 * tanh 0.01 + 0.2 * tanh 0.1))).
Proof.
  unfold score_model. cbn [fadd fsub fmul ftanh lift1 lift2].
  rewrite fdiv_Num by lra. reflexivity.
Qed.

(** Scenario: a historical move of 0.02 against an implied move of 0.05
    gives an underpricing of about 0.40, below the threshold 1.0: the ticker
    is left out. *)
Example scenario_underpriced_excluded (results : list ResultRow) :
  hist_move Sample.yf "LOW" = Num 0.02 /\
  round_ndigits (fst (fst (score_model (Num 0.05) (Num 0.02) (Num 0.01) (Num 0.1)))) 2
    = Num 0.4 /\
  scan_ticker Sample.yf Sample.today (Num 1) (Num 0.5) results "LOW" = Ok results.
Proof.
  assert (hist_move Sample.yf "LOW" = Num 0.02) as Hhm.
  { rewrite (sample_hist_move "LOW" 102) by (reflexivity || lra). f_equal. lra. }
  assert (0.399 < 0.02 / (0.05 + 1e-6) < 0.4) as Hu.
  { split.
    - apply Rmult_lt_reg_r with (0.05 + 1e-6); [lra |].
      unfold Rdiv. rewrite Rmult_assoc, Rinv_l by lra. lra.
    - apply Rmult_lt_reg_r with (0.05 + 1e-6); [lra |].
      unfold Rdiv. rewrite Rmult_assoc, Rinv_l by lra. lra. }
  split; [exact Hhm |]. split.
  - rewrite sample_score. cbn [fst].
    rewrite (round_2_nearest _ 40) by lra. f_equal. lra.
  - rewrite sample_scan_ticker by tauto. rewrite Hhm. cbv zeta.
    rewrite sample_score. unfold accepted. cbn [fge].
    rewrite (bool_decide_eq_false_2 (1 <= _)) by lra. reflexivity.
Qed.

(** Scenario: with a historical move of 0.07 the underpricing is about
    1.40 and the squeeze probability about 0.523: the ticker is listed, with
    the rounded row Underpricing 1.40, Squeeze Prob 0.52, Cascade Prob 0.48.
    The tickers before it in the universe are skipped. *)
Example scenario_listed :
  scan Sample.yf Sample.today (Num 1) (Num 0.5) ["XYZ"; "LTR"; "LOW"; "NOH"; "ABC"]
  = Ok [{| Ticker := "ABC"; Spot := Num 100; Implied_Move_pct := Num 5;
           Hist_Avg_Move_pct := Num 7; Underpricing := Num 1.4;
           Squeeze_Prob := Num 0.52; Cascade_Prob := Num 0.48 |}].
Proof.
  pose proof scenario_tilt as Htilt.
  assert (hist_move Sample.yf "ABC" = Num 0.07) as Hhm.
  { rewrite (sample_hist_move "ABC" 107) by (reflexivity || lra). f_equal. lra. }
  assert (1.399 < 0.07 / (0.05 + 1e-6) < 1.4) as Hu.
  { split.
    - apply Rmult_lt_reg_r with (0.05 + 1e-6); [lra |].
      unfold Rdiv. rewrite Rmult_assoc, Rinv_l by lra. lra.
    - apply Rmult_lt_reg_r with (0.05 + 1e-6); [lra |].
      unfold Rdiv. rewrite Rmult_assoc, Rinv_l by lra. lra. }
  unfold scan. cbn [scan_loop mbind result_bind].
  rewrite (scan_ticker_skip_not_reporting _ _ _ _ _ "XYZ") by reflexivity.
  cbn [mbind result_bind].
  rewrite (scan_ticker_skip_not_reporting _ _ _ _ _ "LTR") by reflexivity.
  cbn [mbind result_bind].
  rewrite (proj2 (proj2 (scenario_underpriced_excluded []))).
  cbn [mbind result_bind].
  assert (scan_ticker Sample.yf Sample.today (Num 1) (Num 0.5) [] "NOH" = Ok []) as ->.
  { rewrite sample_scan_ticker by tauto. reflexivity. }
  cbn [mbind result_bind].
  rewrite (sample_scan_ticker [] "ABC") by tauto.
  rewrite Hhm. cbv zeta. rewrite sample_score.
  unfold accepted. cbn [fge fmul lift2].
  rewrite (bool_decide_eq_true_2 (1 <= _)) by lra.
  rewrite (bool_decide_eq_true_2 (0.5 <= 0.5 + _)) by lra.
  cbn [andb orb app].
  rewrite (round_2_nearest 100 10000) by lra.
  rewrite (round_2_nearest (0.05 * 100) 500) by lra.
  rewrite (round_2_nearest (0.07 * 100) 700) by lra.
  rewrite (round_2_nearest (0.07 / (0.05 + 1e-6)) 140) by lra.
  rewrite (round_2_nearest (0.5 + _) 52) by lra.
  rewrite (round_2_nearest (0.5 - _) 48) by lra.
  cbn [mbind result_bind].
  do 2 f_equal.
  f_equal; f_equal; lra.
Qed.

(** ** The empty universe *)

(** The empty universe: nothing is scanned and the result list is empty,
    which the page reports as the warning that nothing qualified. *)
Example scan_empty_universe :
  scan Sample.yf Sample.today (Num 1) (Num 0.5) [] = Ok [].
Proof. reflexivity. Qed.

(** * Further properties of the code *)

(** ** [idxmin] on columns with missing values *)

Lemma argmin_from_nan_spec (s : list float64) :
  forall (best_i : nat) (best : R) (i : nat),
    (argmin_from best_i best i s = best_i /\
     forall k x, s !! k = Some (Num x) -> best <= x)
    \/
    (exists k x,
        argmin_from best_i best i s = (i + k)%nat /\
        s !! k = Some (Num x) /\ x < best /\
        (forall k' x', s !! k' = Some (Num x') -> x <= x') /\
        (forall k' x', (k' < k)%nat -> s !! k' = Some (Num x') -> x < x')).
Proof.
  induction s as [|[|y] s IH]; intros best_i best i.
  - left. split; [reflexivity |]. intros k x Hk. discriminate.
  - cbn [argmin_from].
    destruct (IH best_i best (S i)) as [[Heq Hall] | (k & x & Heq & Hk & Hx & Hmin & Hfirst)].
    + left. split; [done |]. intros [|k'] x' Hk'; simpl in Hk'; [discriminate | eauto].
    + right. exists (S k), x. rewrite Heq. repeat split; auto; try lia.
      * intros [|k'] x' Hk'; simpl in Hk'; [discriminate | eauto].
      * intros [|k'] x' Hlt Hk'; simpl in Hk'; [discriminate |].
        apply (Hfirst k'); [lia | done].
  - cbn [argmin_from].
    destruct (decide (y < best)) as [Hlt | Hge].
    + right.
      destruct (IH i y (S i)) as [[Heq Hall] | (k & x & Heq & Hk & Hx & Hmin & Hfirst)].
      * exists 0%nat, y. rewrite Heq, Nat.add_0_r. repeat split; auto.
        -- intros [|k'] x' Hk'; simpl in Hk'; [injection Hk' as <-; lra | eauto].
        -- intros k' x' Hk'. lia.
      * exists (S k), x. rewrite Heq. repeat split; auto; try lia; try lra.
        -- intros [|k'] x' Hk'; simpl in Hk'; [injection Hk' as <-; lra | eauto].
        -- intros [|k'] x' Hlt' Hk'; simpl in Hk'; [injection Hk' as <-; lra |].
           apply (Hfirst k'); [lia | done].
    + destruct (IH best_i best (S i)) as [[Heq Hall] | (k & x & Heq & Hk & Hx & Hmin & Hfirst)].
      * left. split; [done |].
        intros [|k'] x' Hk'; simpl in Hk'; [injection Hk' as <-; lra | eauto].
      * right. exists (S k), x. rewrite Heq. repeat split; auto; try lia.
        -- intros [|k'] x' Hk'; simpl in Hk'; [injection Hk' as <-; lra | eauto].
        -- intros [|k'] x' Hlt' Hk'; simpl in Hk'; [injection Hk' as <-; lra |].
           apply (Hfirst k'); [lia | done].
Qed.

Lemma first_valid_argmin_spec (s : list float64) :
  forall i : nat,
    match first_valid_argmin i s with
    | Some r =>
        exists k x,
          r = (i + k)%nat /\ s !! k = Some (Num x) /\
          (forall k' x', s !! k' = Some (Num x') -> x <= x') /\
          (forall k' x', (k' < k)%nat -> s !! k' = Some (Num x') -> x < x')
    | None => forall k v, s !! k = Some v -> v = NaN
    end.
Proof.
  induction s as [|[|y] s IH]; intros i; cbn [first_valid_argmin].
  - intros k v Hk. discriminate.
  - specialize (IH (S i)). destruct (first_valid_argmin (S i) s) as [r|].
    + destruct IH as (k & x & -> & Hk & Hmin & Hfirst).
      exists (S k), x. repeat split; auto; try lia.
      * intros [|k'] x' Hk'; simpl in Hk'; [discriminate | eauto].
      * intros [|k'] x' Hlt Hk'; simpl in Hk'; [discriminate |].
        apply (Hfirst k'); [lia | done].
    + intros [|k] v Hk; simpl in Hk; [by injection Hk as <- | eauto].
  - destruct (argmin_from_nan_spec s i y (S i))
      as [[Heq Hall] | (k & x & Heq & Hk & Hx & Hmin & Hfirst)].
    + exists 0%nat, y. rewrite Heq. repeat split; auto; try lia.
      intros [|k'] x' Hk'; simpl in Hk'; [injection Hk' as <-; lra | eauto].
    + exists (S k), x. rewrite Heq. repeat split; auto; try lia.
      * intros [|k'] x' Hk'; simpl in Hk'; [injection Hk' as <-; lra | eauto].
      * intros [|k'] x' Hlt Hk'; simpl in Hk'; [injection Hk' as <-; lra |].
        apply (Hfirst k'); [lia | done].
Qed.

(** X1: on any column [idxmin] either answers the label of a number that is
    least among the numbers of the column and strictly below every number
    before it (missing values are passed over), or raises, and it raises
    exactly when the column holds no number at all. *)
Theorem idxmin_skips_missing (s : list float64) :
  match idxmin s with
  | Ok i =>
      exists x,
        s !! i = Some (Num x) /\
        (forall j y, s !! j = Some (Num y) -> x <= y) /\
        (forall j y, (j < i)%nat -> s !! j = Some (Num y) -> x < y)
  | Raise _ => forall j v, s !! j = Some v -> v = NaN
  end.
Proof.
  unfold idxmin.
  pose proof (first_valid_argmin_spec s 0) as H.
  destruct (first_valid_argmin 0 s) as [r|].
  - destruct H as (k & x & -> & Hk & Hmin & Hfirst). exists x. auto.
  - exact H.
Qed.

(** ** The implied-move estimator, case by case *)

(** Everything [implied_move] can do, by the columns the two frames have. *)
Lemma implied_move_cases (spot : float64) (st : chains) :
  implied_move spot st =
    match calls st !! "strike" with
    | None => (Raise KeyError, st)
    | Some call_strike =>
        let call_dist := series_abs (series_sub_scalar call_strike spot) in
        let calls' := <["dist" := call_dist]> (calls st) in
        match puts st !! "strike" with
        | None => (Raise KeyError, Chains calls' (puts st))
        | Some put_strike =>
            let put_dist := series_abs (series_sub_scalar put_strike spot) in
            (match idxmin call_dist with
             | Raise e => Raise e
             | Ok i =>
                 match idxmin put_dist with
                 | Raise e => Raise e
                 | Ok j =>
                     match calls st !! "lastPrice" ≫= (fun s => s !! i) with
                     | None => Raise KeyError
                     | Some call_price =>
                         match puts st !! "lastPrice" ≫= (fun s => s !! j) with
                         | None => Raise KeyError
                         | Some put_price => Ok (fdiv (fadd call_price put_price) spot)
                         end
                     end
                 end
             end,
             Chains calls' (<["dist" := put_dist]> (puts st)))
        end
    end.
Proof.
  destruct st as [c p]. unfold_extractor. unfold row_getitem. cbn [calls puts].
  destruct (c !! "strike") as [cs|]; [|reflexivity].
  destruct (p !! "strike") as [ps|]; [|reflexivity].
  cbv zeta. rewrite !lookup_insert_eq.
  destruct (idxmin _) as [i|e]; [|reflexivity].
  destruct (idxmin _) as [j|e]; [|reflexivity].
  rewrite !frame_loc_lookup, !lookup_insert_ne by done.
  destruct (c !! "lastPrice") as [cp|], (p !! "lastPrice") as [pp|]; cbn;
    try reflexivity.
  - destruct (cp !! i), (pp !! j); reflexivity.
  - destruct (cp !! i); reflexivity.
Qed.

Lemma idxmin_raises_ValueError (s : list float64) (e : exn) :
  idxmin s = Raise e -> e = ValueError.
Proof. unfold idxmin. destruct (first_valid_argmin 0 s); congruence. Qed.

Lemma first_valid_argmin_all_nan (s : list float64) (i : nat) :
  Forall (fun v => v = NaN) s -> first_valid_argmin i s = None.
Proof.
  intros Hall. revert i.
  induction Hall as [|v s -> _ IH]; intros i; cbn [first_valid_argmin]; [done | apply IH].
Qed.

Lemma dist_of_nan_spot (strike : list float64) :
  Forall (fun v => v = NaN) (series_abs (series_sub_scalar strike NaN)).
Proof.
  unfold series_abs, series_sub_scalar.
  induction strike as [|[|x] strike IH]; cbn; constructor; auto.
Qed.

Lemma fadd_comm (a b : float64) : fadd a b = fadd b a.
Proof. destruct a, b; cbn; try reflexivity. f_equal. lra. Qed.

(** X2: with a spot that is not a number the implied-move estimator never
    returns a value: whatever the frames hold, it raises. *)
Theorem implied_move_nan_spot_raises (st : chains) :
  exists e, fst (implied_move NaN st) = Raise e.
Proof.
  rewrite implied_move_cases.
  destruct (calls st !! "strike") as [cs|]; [|by eexists].
  destruct (puts st !! "strike") as [ps|]; [|by eexists].
  cbv zeta. cbn [fst]. unfold idxmin.
  rewrite (first_valid_argmin_all_nan _ 0 (dist_of_nan_spot cs)). by eexists.
Qed.

(** X3: when every last price of the two frames is a number that is not
    negative and the spot is positive, whatever the implied-move estimator
    returns is a number that is not negative. *)
Theorem implied_move_nonneg (spot : R) (st : chains) (v : float64) :
  (forall prices, calls st !! "lastPrice" = Some prices -> Forall nonneg prices) ->
  (forall prices, puts st !! "lastPrice" = Some prices -> Forall nonneg prices) ->
  0 < spot ->
  fst (implied_move (Num spot) st) = Ok v ->
  nonneg v.
Proof.
  intros Hc Hp Hspot. rewrite implied_move_cases.
  destruct (calls st !! "strike") as [cs|]; [|discriminate].
  destruct (puts st !! "strike") as [ps|]; [|discriminate].
  cbv zeta. cbn [fst].
  destruct (idxmin _) as [i|e]; [|discriminate].
  destruct (idxmin _) as [j|e]; [|discriminate].
  destruct (calls st !! "lastPrice") as [cp|] eqn:Hcp; [|discriminate].
  destruct (puts st !! "lastPrice") as [pp|] eqn:Hpp; cbn [mbind option_bind];
    [| destruct (cp !! i); discriminate].
  destruct (cp !! i) as [a|] eqn:Ha; [|discriminate].
  destruct (pp !! j) as [b|] eqn:Hb; [|discriminate].
  intros [= <-].
  specialize (Hc _ eq_refl). specialize (Hp _ eq_refl).
  rewrite Forall_lookup in Hc. rewrite Forall_lookup in Hp.
  destruct (Hc _ _ Ha) as (x & -> & Hx). destruct (Hp _ _ Hb) as (y & -> & Hy).
  cbn [fadd lift2]. rewrite fdiv_Num by lra.
  eexists. split; [reflexivity |].
  apply Rmult_le_pos; [lra |]. left. apply Rinv_0_lt_compat. lra.
Qed.

Lemma implied_move_nonneg_witness : nonneg (Num ((3 + 2) / 100)).
Proof.
  apply (implied_move_nonneg 100 Sample.chain_abc (Num ((3 + 2) / 100))).
  - intros prices [= <-].
    repeat constructor; eexists; (split; [reflexivity | lra]).
  - intros prices [= <-].
    repeat constructor; eexists; (split; [reflexivity | lra]).
  - lra.
  - rewrite sample_implied_move. cbn [fst fadd lift2]. rewrite fdiv_Num by lra.
    reflexivity.
Defined.

(** X4: running the implied-move estimator a second time on the frames it
    has left behind gives the same outcome, value or exception, and leaves
    the frames as the first run did. *)
Theorem implied_move_idempotent (spot : float64) (st : chains) :
  implied_move spot (snd (implied_move spot st)) = implied_move spot st.
Proof.
  rewrite (implied_move_cases spot st).
  destruct (calls st !! "strike") as [cs|] eqn:Hcs.
  2:{ cbn [snd]. rewrite implied_move_cases, Hcs. reflexivity. }
  destruct (puts st !! "strike") as [ps|] eqn:Hps; cbv zeta; cbn [snd];
    rewrite implied_move_cases; cbn [calls puts];
    rewrite ?lookup_insert_ne by done; rewrite Hcs, Hps; cbv zeta;
    rewrite ?insert_insert_eq; reflexivity.
Qed.

(** X5: the implied move does not depend on which frame is handed over as
    calls and which as puts: with the two sides exchanged the estimator
    returns the same value, or raises the same exception. *)
Theorem implied_move_swap_sides (spot : float64) (st : chains) :
  fst (implied_move spot (swap_sides st)) = fst (implied_move spot st).
Proof.
  rewrite !implied_move_cases. unfold swap_sides. cbn [calls puts].
  destruct (calls st !! "strike") as [cs|], (puts st !! "strike") as [ps|];
    try reflexivity.
  cbv zeta. cbn [fst].
  destruct (idxmin (series_abs (series_sub_scalar cs spot))) as [i|e1] eqn:Hi,
           (idxmin (series_abs (series_sub_scalar ps spot))) as [j|e2] eqn:Hj;
    try reflexivity.
  - destruct (calls st !! "lastPrice" ≫= _), (puts st !! "lastPrice" ≫= _);
      try reflexivity.
    by rewrite fadd_comm.
  - by rewrite (idxmin_raises_ValueError _ _ Hi), (idxmin_raises_ValueError _ _ Hj).
Qed.

(** ** Skew, imbalance and the score under an exchange of the sides *)

Lemma tanh_opp (x : R) : tanh (- x) = - tanh x.
Proof.
  unfold tanh, sinh, cosh. rewrite Ropp_involutive.
  pose proof (exp_pos x). pose proof (exp_pos (- x)).
  field. lra.
Qed.

Lemma fsub_swap (a b : float64) : fsub b a = fneg (fsub a b).
Proof. destruct a, b; cbn; try reflexivity. f_equal. lra. Qed.

Lemma imbalance_swap (c p : R) :
  fdiv (fsub (Num p) (Num c)) (fadd (fadd (Num p) (Num c)) (Num 1))
  = fneg (fdiv (fsub (Num c) (Num p)) (fadd (fadd (Num c) (Num p)) (Num 1))).
Proof.
  cbn [fsub fadd lift2]. unfold fdiv.
  replace (p + c + 1) with (c + p + 1) by lra.
  destruct (decide (c + p + 1 = 0)) as [Hz | Hnz]; [reflexivity |].
  cbn. f_equal. field. exact Hnz.
Qed.

(** X6: with the call frame and the put frame exchanged, the skew proxy and
    the open-interest imbalance change sign, and raise where they raised
    before. *)
Theorem skew_and_imbalance_swap_sides (st : chains) :
  fst (skew_proxy (swap_sides st)) =
    match fst (skew_proxy st) with
    | Ok skew => Ok (fneg skew)
    | Raise e => Raise e
    end /\
  fst (oi_imbalance (swap_sides st)) =
    match fst (oi_imbalance st) with
    | Ok oi => Ok (fneg oi)
    | Raise e => Raise e
    end.
Proof.
  unfold skew_proxy, oi_imbalance, swap_sides, mbind, M_bind, getitem, mret, M_ret,
    frame_of, frame_getitem.
  cbn [calls puts]. split.
  - destruct (puts st !! "impliedVolatility") as [piv|],
             (calls st !! "impliedVolatility") as [civ|]; cbn [fst]; try reflexivity.
    by rewrite fsub_swap.
  - destruct (calls st !! "openInterest") as [coi|],
             (puts st !! "openInterest") as [poi|]; cbn [fst]; try reflexivity.
    unfold series_sum. by rewrite imbalance_swap.
Qed.

(** X7: a skew and an imbalance of opposite sign exchange the squeeze and
    the cascade probability and leave the underpricing as it is. *)
Theorem score_model_opposite_tilt (im hm skew oi : float64) :
  score_model im hm (fneg skew) (fneg oi) =
    (fst (fst (score_model im hm skew oi)),
     snd (score_model im hm skew oi),
     snd (fst (score_model im hm skew oi))).
Proof.
  unfold score_model. cbn [fst snd].
  destruct skew as [|s], oi as [|o]; cbn; try reflexivity.
  rewrite !tanh_opp. do 2 f_equal; f_equal; lra.
Qed.

(** ** The probability test of the scan *)

(** X8: for a skew and an imbalance that are numbers and a probability
    threshold of at most 0.5, the larger of squeeze and cascade always
    reaches the threshold, so a ticker is accepted exactly when its
    underpricing reaches [min_underpricing]. *)
Theorem probability_test_vacuous (min_underpricing im hm : float64) (skew oi min_prob : R) :
  min_prob <= 0.5 ->
  accepted min_underpricing (Num min_prob)
    (fst (fst (score_model im hm (Num skew) (Num oi))))
    (snd (fst (score_model im hm (Num skew) (Num oi))))
    (snd (score_model im hm (Num skew) (Num oi)))
  = fge (fst (fst (score_model im hm (Num skew) (Num oi)))) min_underpricing.
Proof.
  intros Hmp. unfold accepted, score_model. cbn [fst snd ftanh lift1 fmul fadd fsub lift2 fge].
  set (tilt := 0.3 * tanh skew + 0.2 * tanh oi).
  assert (bool_decide (min_prob <= 0.5 + tilt) || bool_decide (min_prob <= 0.5 - tilt) = true)
    as ->.
  { destruct (Rle_lt_dec 0 tilt).
    - rewrite (bool_decide_eq_true_2 (min_prob <= 0.5 + tilt)) by lra. reflexivity.
    - rewrite (bool_decide_eq_true_2 (min_prob <= 0.5 - tilt)) by lra. apply orb_true_r. }
  apply andb_true_r.
Qed.

Lemma probability_test_vacuous_witness :
  accepted (Num 1) (Num 0.5)
    (fst (fst (score_model (Num 0.05) (Num 0.02) (Num 0.01) (Num 0.1))))
    (snd (fst (score_model (Num 0.05) (Num 0.02) (Num 0.01) (Num 0.1))))
    (snd (score_model (Num 0.05) (Num 0.02) (Num 0.01) (Num 0.1)))
  = fge (fst (fst (score_model (Num 0.05) (Num 0.02) (Num 0.01) (Num 0.1)))) (Num 1).
Proof.
  apply (probability_test_vacuous (Num 1) (Num 0.05) (Num 0.02) 0.01 0.1 0.5). lra.
Defined.

(** ** The sign of the open-interest imbalance *)

(** X9: with totals of open interest that are not negative, the imbalance
    is positive exactly when the calls hold more open interest than the
    puts, and zero exactly when the two totals are equal. *)
Theorem oi_imbalance_sign
    (st : chains) (call_column put_column : list float64) (call_oi put_oi : R) :
  calls st !! "openInterest" = Some call_column ->
  puts st !! "openInterest" = Some put_column ->
  series_sum call_column = Num call_oi ->
  series_sum put_column = Num put_oi ->
  0 <= call_oi ->
  0 <= put_oi ->
  exists oi : R,
    fst (oi_imbalance st) = Ok (Num oi) /\
    (0 < oi <-> put_oi < call_oi) /\
    (oi = 0 <-> call_oi = put_oi).
Proof.
  intros Hc Hp Hcs Hps Hc0 Hp0.
  exists ((call_oi - put_oi) / (call_oi + put_oi + 1)).
  split.
  - rewrite (oi_imbalance_value st call_column put_column) by done.
    cbn [fst]. rewrite Hcs, Hps. cbn [fadd fsub lift2].
    rewrite fdiv_Num by lra. reflexivity.
  - assert (0 < / (call_oi + put_oi + 1)) as Hinv by (apply Rinv_0_lt_compat; lra).
    unfold Rdiv. split; split; intros H; try nra.
Qed.

Lemma oi_imbalance_sign_witness :
  exists oi : R,
    fst (oi_imbalance Sample.chain_abc) = Ok (Num oi) /\
    (0 < oi <-> 4 < 5) /\
    (oi = 0 <-> 5 = 4).
Proof.
  apply (oi_imbalance_sign Sample.chain_abc
           [Num 1; Num 2; Num 1; Num 1] [Num 1; Num 1; Num 1; Num 1] 5 4);
    try reflexivity; try lra.
  - unfold series_sum. simpl. f_equal. lra.
  - unfold series_sum. simpl. f_equal. lra.
Defined.

(** ** The historical-move estimator *)

Lemma dropna_nums (xs : list R) : dropna (Num <$> xs) = xs.
Proof. induction xs as [|x xs IH]; cbn; [done | by rewrite IH]. Qed.

Lemma series_mean_nums (xs : list R) :
  xs <> [] -> series_mean (Num <$> xs) = Num (Rsum xs / INR (length xs)).
Proof.
  intros Hne. unfold series_mean. rewrite dropna_nums.
  destruct xs; [done | reflexivity].
Qed.

Lemma series_abs_nums (xs : list R) :
  series_abs (Num <$> xs) = Num <$> (Rabs <$> xs).
Proof.
  unfold series_abs. induction xs as [|x xs IH]; cbn; [done | by rewrite IH].
Qed.

Lemma Rsum_nonneg (xs : list R) : Forall (fun x => 0 <= x) xs -> 0 <= Rsum xs.
Proof. unfold Rsum. induction 1 as [|x xs Hx _ IH]; cbn; lra. Qed.

Lemma dropna_abs_nonneg (s : list float64) :
  Forall (fun x => 0 <= x) (dropna (series_abs s)).
Proof.
  unfold series_abs.
  induction s as [|[|x] s IH]; cbn; [constructor | exact IH |].
  constructor; [apply Rabs_pos | exact IH].
Qed.

Lemma mean_abs_nonneg (s : list float64) :
  series_mean (series_abs s) = NaN \/ nonneg (series_mean (series_abs s)).
Proof.
  unfold series_mean.
  pose proof (dropna_abs_nonneg s) as Hall.
  destruct (dropna (series_abs s)) as [|x xs] eqn:Hd; [by left | right].
  eexists. split; [reflexivity |].
  apply Rmult_le_pos; [by apply Rsum_nonneg |].
  left. apply Rinv_0_lt_compat. apply lt_0_INR. cbn. lia.
Qed.

Lemma pct_change_tail (c : R) (cs : list R) :
  Forall (fun x => x <> 0) (c :: cs) ->
  zip_with (fun x prev => fsub (fdiv x prev) (Num 1))
    (Num <$> cs) (removelast (Num <$> (c :: cs)))
  = Num <$> daily_returns c cs.
Proof.
  revert c. induction cs as [|c1 cs IH]; intros c Hnz; [reflexivity |].
  apply Forall_cons in Hnz as [Hc Hnz].
  change (removelast (Num <$> (c :: c1 :: cs)))
    with (Num c :: removelast (Num <$> (c1 :: cs))).
  cbn [fmap list_fmap zip_with daily_returns].
  rewrite fdiv_Num by done. cbn [fsub lift2].
  f_equal. by apply IH.
Qed.

Lemma pct_change_nums (c0 : R) (cs : list R) :
  Forall (fun x => x <> 0) (c0 :: cs) ->
  pct_change (Num <$> (c0 :: cs)) = NaN :: (Num <$> daily_returns c0 cs).
Proof.
  intros Hnz. unfold pct_change, shift1.
  cbn [fmap list_fmap]. cbn [zip_with]. f_equal.
  by apply pct_change_tail.
Qed.

Lemma daily_returns_length (c : R) (cs : list R) :
  length (daily_returns c cs) = length cs.
Proof. revert c. induction cs as [|c1 cs IH]; intros c; cbn; [done | by rewrite IH]. Qed.

Lemma hist_move_of_closes (yf : Provider) (ticker : string)
    (df : gmap string (list float64)) (close : list float64) :
  history yf ticker "2y" = Ok df ->
  df !! "Close" = Some close ->
  hist_move yf ticker = series_mean (series_abs (pct_change close)).
Proof.
  intros Hh Hc. unfold hist_move, hist_move_try, frame_getitem, frame_setitem.
  rewrite Hh. cbn [mbind result_bind]. rewrite Hc. cbn [mbind result_bind].
  rewrite lookup_insert_eq. reflexivity.
Qed.

(** X10: on a two-year history of at least two closes, all of them numbers
    other than zero, the historical move is the mean of the absolute
    day-over-day returns c_i / c_(i-1) - 1. *)
Theorem hist_move_mean_abs_return (yf : Provider) (ticker : string)
    (df : gmap string (list float64)) (c0 : R) (cs : list R) :
  history yf ticker "2y" = Ok df ->
  df !! "Close" = Some (Num <$> (c0 :: cs)) ->
  Forall (fun c => c <> 0) (c0 :: cs) ->
  cs <> [] ->
  hist_move yf ticker
  = Num (Rsum (Rabs <$> daily_returns c0 cs) / INR (length cs)).
Proof.
  intros Hh Hc Hnz Hne.
  rewrite (hist_move_of_closes yf ticker df _ Hh Hc).
  rewrite pct_change_nums by done.
  assert (series_mean (series_abs (NaN :: (Num <$> daily_returns c0 cs)))
          = series_mean (Num <$> (Rabs <$> daily_returns c0 cs))) as ->.
  { rewrite <- series_abs_nums. reflexivity. }
  rewrite series_mean_nums.
  - by rewrite length_fmap, daily_returns_length.
  - destruct cs; [done | discriminate].
Qed.

Lemma hist_move_mean_abs_return_witness :
  hist_move Sample.yf "ABC"
  = Num (Rsum (Rabs <$> daily_returns 100 [107]) / INR (length [107])).
Proof.
  apply (hist_move_mean_abs_return Sample.yf "ABC" (Sample.closes [Num 100; Num 107])).
  - reflexivity.
  - reflexivity.
  - repeat constructor; lra.
  - discriminate.
Defined.

(** X11: whatever the provider answers, the historical move is either
    not-a-number or a number that is not negative. *)
Theorem hist_move_nan_or_nonneg (yf : Provider) (ticker : string) :
  hist_move yf ticker = NaN \/ nonneg (hist_move yf ticker).
Proof.
  unfold hist_move, hist_move_try, frame_getitem, frame_setitem.
  destruct (history yf ticker "2y") as [df|e]; cbn; [|by left].
  destruct (df !! "Close") as [close|]; cbn; [|by left].
  rewrite lookup_insert_eq. cbn. apply mean_abs_nonneg.
Qed.

(** X12: the historical move is not-a-number when the two-year history
    cannot be fetched, when it has no "Close" column, and when it has fewer
    than two closes. *)
Theorem hist_move_nan_cases (yf : Provider) (ticker : string) :
  (exists e, history yf ticker "2y" = Raise e) \/
  (exists df, history yf ticker "2y" = Ok df /\ df !! "Close" = None) \/
  (exists df close,
      history yf ticker "2y" = Ok df /\ df !! "Close" = Some close /\
      (length close <= 1)%nat) ->
  hist_move yf ticker = NaN.
Proof.
  intros [[e He] | [(df & Hh & Hc) | (df & close & Hh & Hc & Hlen)]].
  - unfold hist_move, hist_move_try. by rewrite He.
  - unfold hist_move, hist_move_try, frame_getitem. rewrite Hh. cbn. by rewrite Hc.
  - rewrite (hist_move_of_closes yf ticker df close Hh Hc).
    destruct close as [|v [|w close]]; [reflexivity | | cbn in Hlen; lia].
    destruct v; reflexivity.
Qed.

Lemma hist_move_nan_cases_witness : hist_move Sample.yf "NOH" = NaN.
Proof.
  apply (hist_move_nan_cases Sample.yf "NOH").
  left. exists ProviderError. reflexivity.
Defined.

(** ** The options fetch *)

Section OptionsFetch.

Variable yf : Provider.
Variable TODAY : date.
Variables min_underpricing min_prob : float64.

(** The options fetch answers data exactly when every step of it goes
    through; the spot it answers is then the last close of the one-day
    history, the expiry the first of the listed expirations, and the frames
    the chain of that expiry. *)
Lemma get_options_data_Some (ticker : string) (spot : float64) (expiry : string)
    (c p : gmap string (list float64)) :
  get_options_data yf ticker = Some (spot, expiry, c, p)
  <-> options_available yf ticker spot expiry c p.
Proof.
  unfold get_options_data, get_options_data_try, options_available, try_except,
    frame_getitem, iloc_last.
  split.
  - destruct (history yf ticker "1d") as [df|e] eqn:Hh; cbn; [|discriminate].
    destruct (df !! "Close") as [close|] eqn:Hc; cbn; [|discriminate].
    destruct (last close) as [v|] eqn:Hl; cbn; [|discriminate].
    destruct (options yf ticker) as [[|exp later]|e] eqn:Ho; cbn; try discriminate.
    destruct (option_chain yf ticker exp) as [[c' p']|e] eqn:Hch; cbn; [|discriminate].
    intros [= -> -> -> ->]. exists df, close, later. auto.
  - intros (df & close & later & -> & Hc & Hl & Ho & Hch). cbn.
    rewrite Hc. cbn. rewrite Hl. cbn. rewrite Ho. cbn. rewrite Hch. reflexivity.
Qed.

(** X13: a ticker whose options fetch does not go through -- a provider
    call raises, the history is empty, or no expiration is listed -- is
    passed over without an error: the iteration leaves the results as they
    are, and no row of a completed scan carries the ticker. *)
Theorem no_options_never_listed (ticker : string) :
  (forall spot expiry c p, ~ options_available yf ticker spot expiry c p) ->
  get_options_data yf ticker = None /\
  (forall results,
      scan_ticker yf TODAY min_underpricing min_prob results ticker = Ok results) /\
  (forall universe results,
      scan yf TODAY min_underpricing min_prob universe = Ok results ->
      ticker ∉ Ticker <$> results).
Proof.
  intros Hnot.
  assert (get_options_data yf ticker = None) as Hnone.
  { destruct (get_options_data yf ticker) as [[[[spot expiry] c] p]|] eqn:H; [|done].
    apply get_options_data_Some in H. by apply Hnot in H. }
  assert (forall results,
            scan_ticker yf TODAY min_underpricing min_prob results ticker = Ok results)
    as Hskip.
  { intros results. unfold scan_ticker. rewrite Hnone.
    by destruct (reports_today yf TODAY ticker). }
  split; [done |]. split; [done |].
  intros universe results Hscan Hin.
  apply list_elem_of_fmap in Hin as (row & -> & Hrow).
  destruct (scan_loop_rows _ _ _ _ _ _ _ _ Hscan Hrow) as [Hnil | [_ Hnew]].
  - by apply elem_of_nil in Hnil.
  - rewrite Hskip in Hnew. discriminate.
Qed.

End OptionsFetch.

Lemma no_options_never_listed_witness :
  get_options_data Sample.yf_no_expiry "ABC" = None /\
  (forall results,
      scan_ticker Sample.yf_no_expiry Sample.today (Num 1) (Num 0.5) results "ABC"
      = Ok results) /\
  (forall universe results,
      scan Sample.yf_no_expiry Sample.today (Num 1) (Num 0.5) universe = Ok results ->
      "ABC" ∉ Ticker <$> results).
Proof.
  apply (no_options_never_listed Sample.yf_no_expiry Sample.today (Num 1) (Num 0.5) "ABC").
  intros spot expiry c p (df & close & later & _ & _ & _ & Ho & _).
  vm_compute in Ho. discriminate Ho.
Defined.

(** ** The scan as a whole *)

Section ScanStructure.

Variable yf : Provider.
Variable TODAY : date.
Variables min_underpricing min_prob : float64.

(** A scan completes exactly when the iteration of every ticker does, and
    its rows are then those of the iterations, in the order of the
    universe. *)
Lemma scan_loop_concat (universe : list string) :
  forall results final,
    scan_loop yf TODAY min_underpricing min_prob results universe = Ok final <->
    exists news,
      Forall2 (fun ticker new =>
                 scan_ticker yf TODAY min_underpricing min_prob [] ticker = Ok new)
              universe news /\
      final = results ++ concat news.
Proof.
  induction universe as [|ticker universe IH]; intros results final.
  - cbn [scan_loop]. split.
    + intros [= <-]. exists []. split; [constructor | by rewrite app_nil_r].
    + intros (news & Hall & ->). apply Forall2_nil_inv_l in Hall as ->.
      by rewrite app_nil_r.
  - cbn [scan_loop]. rewrite scan_ticker_append.
    destruct (scan_ticker yf TODAY min_underpricing min_prob [] ticker) as [new|e] eqn:Hnew;
      cbn [mbind result_bind].
    + rewrite IH. split.
      * intros (news & Hall & ->). exists (new :: news).
        split; [by constructor | cbn [concat]; by rewrite app_assoc].
      * intros (news & Hall & ->).
        apply Forall2_cons_inv_l in Hall as (new' & news' & Hnew' & Hall & ->).
        rewrite Hnew in Hnew'. injection Hnew' as <-.
        exists news'. split; [done | cbn [concat]; by rewrite app_assoc].
    + split; [discriminate |].
      intros (news & Hall & _).
      apply Forall2_cons_inv_l in Hall as (new' & news' & Hnew' & _ & _).
      rewrite Hnew in Hnew'. discriminate.
Qed.

Lemma scan_tickers_sublist (universe : list string) (news : list (list ResultRow)) :
  Forall2 (fun ticker new =>
             scan_ticker yf TODAY min_underpricing min_prob [] ticker = Ok new)
          universe news ->
  (Ticker <$> concat news) `sublist_of` universe.
Proof.
  induction 1 as [|ticker new universe news Hnew _ IH]; cbn [concat]; [done |].
  apply scan_ticker_new_rows in Hnew as [-> | (row & -> & <- & _)]; cbn.
  - by apply sublist_cons.
  - by apply sublist_skip.
Qed.

Lemma scan_results_sublist (universe : list string) (results : list ResultRow) :
  scan yf TODAY min_underpricing min_prob universe = Ok results ->
  (Ticker <$> results) `sublist_of` universe.
Proof.
  intros Hscan. unfold scan in Hscan.
  apply scan_loop_concat in Hscan as (news & Hall & ->). cbn [app].
  by apply scan_tickers_sublist.
Qed.

(** X14: the rows of a completed scan follow the order of the universe: the
    tickers of the result list are a subsequence of the universe, so there
    are at most as many rows as tickers, and no ticker is listed twice when
    the universe names none twice. *)
Theorem scan_keeps_universe_order (universe : list string) (results : list ResultRow) :
  scan yf TODAY min_underpricing min_prob universe = Ok results ->
  (Ticker <$> results) `sublist_of` universe /\
  (length results <= length universe)%nat /\
  (NoDup universe -> NoDup (Ticker <$> results)).
Proof.
  intros Hscan. apply scan_results_sublist in Hscan as Hsub.
  split; [done |]. split.
  - apply sublist_length in Hsub. by rewrite length_fmap in Hsub.
  - intros Hnodup. by eapply sublist_NoDup.
Qed.

(** What stands behind a row: the ticker reports today, its options fetch
    and its three chain extractors went through, its score passed the
    acceptance test, and the row holds the rounded values. *)
Lemma scan_ticker_row_inv (ticker : string) (row : ResultRow) :
  scan_ticker yf TODAY min_underpricing min_prob [] ticker = Ok [row] ->
  exists spot expiry c p im skew oi st1 st2 st3,
    reports_today yf TODAY ticker = true /\
    get_options_data yf ticker = Some (spot, expiry, c, p) /\
    implied_move spot (Chains c p) = (Ok im, st1) /\
    skew_proxy st1 = (Ok skew, st2) /\
    oi_imbalance st2 = (Ok oi, st3) /\
    accepted min_underpricing min_prob
      (fst (fst (score_model im (hist_move yf ticker) skew oi)))
      (snd (fst (score_model im (hist_move yf ticker) skew oi)))
      (snd (score_model im (hist_move yf ticker) skew oi)) = true /\
    row =
      {| Ticker := ticker;
         Spot := round_ndigits spot 2;
         Implied_Move_pct := round_ndigits (fmul im (Num 100)) 2;
         Hist_Avg_Move_pct := round_ndigits (fmul (hist_move yf ticker) (Num 100)) 2;
         Underpricing :=
           round_ndigits (fst (fst (score_model im (hist_move yf ticker) skew oi))) 2;
         Squeeze_Prob :=
           round_ndigits (snd (fst (score_model im (hist_move yf ticker) skew oi))) 2;
         Cascade_Prob :=
           round_ndigits (snd (score_model im (hist_move yf ticker) skew oi)) 2 |}.
Proof.
  unfold scan_ticker.
  destruct (reports_today yf TODAY ticker) eqn:Hrep; [|discriminate].
  destruct (get_options_data yf ticker) as [[[[spot expiry] c] p]|] eqn:Hdata; [|discriminate].
  unfold mbind, M_bind.
  destruct (implied_move spot _) as [[im|e] st1] eqn:Him; [|discriminate].
  destruct (skew_proxy st1) as [[skew|e] st2] eqn:Hskew; [|discriminate].
  destruct (oi_imbalance st2) as [[oi|e] st3] eqn:Hoi; [|discriminate].
  cbv zeta.
  destruct (score_model im (hist_move yf ticker) skew oi) as [[u s] cs] eqn:Hscore.
  destruct (accepted _ _ u s cs) eqn:Hacc; cbn [fst mret M_ret app]; [|discriminate].
  intros [= <-].
  exists spot, expiry, c, p, im, skew, oi, st1, st2, st3.
  rewrite Hscore. cbn [fst snd]. repeat split; done.
Qed.

End ScanStructure.

(** ** Rounding *)

Lemma rint_bounds (x : R) : IZR (rint x) - 1 / 2 <= x <= IZR (rint x) + 1 / 2.
Proof.
  unfold rint.
  pose proof (base_fp x) as [Hfp0 Hfp1].
  unfold frac_part in *.
  destruct (decide (x - IZR (Int_part x) < 1 / 2)); [lra |].
  destruct (decide (1 / 2 < x - IZR (Int_part x))); [rewrite plus_IZR; lra |].
  destruct (Z.even (Int_part x)); [lra | rewrite plus_IZR; lra].
Qed.

Lemma rint_ge (x : R) (n : Z) : IZR n <= x -> (n <= rint x)%Z.
Proof.
  intros Hx. pose proof (rint_bounds x) as [_ Hup].
  assert (IZR (n - 1) < IZR (rint x)) as Hlt by (rewrite minus_IZR; lra).
  apply lt_IZR in Hlt. lia.
Qed.

Lemma round_2_ge (u : float64) (n : Z) :
  fge u (Num (IZR n / 100)) = true ->
  fge (round_ndigits u 2) (Num (IZR n / 100)) = true.
Proof.
  intros Hu. apply fge_true_inv in Hu as (x & y & -> & [= <-] & Hx).
  unfold round_ndigits, lift1. apply fge_Num.
  replace (10 ^ 2) with 100 by (simpl; lra).
  assert (IZR n <= x * 100) as Hn.
  { apply Rmult_le_reg_r with (/ 100); [lra |]. lra. }
  apply rint_ge in Hn. apply IZR_le in Hn.
  apply Rmult_le_compat_r with (r := / 100) in Hn; [exact Hn | lra].
Qed.

(** X16: [round(x, ndigits)] of a number is a number within half a unit of
    the last kept decimal place of [x]. *)
Theorem round_ndigits_error (x : R) (ndigits : nat) :
  exists y : R,
    round_ndigits (Num x) ndigits = Num y /\
    Rabs (y - x) <= 1 / 2 / 10 ^ ndigits.
Proof.
  eexists. split; [reflexivity |].
  assert (0 < 10 ^ ndigits) as Hpow by (apply pow_lt; lra).
  pose proof (rint_bounds (x * 10 ^ ndigits)) as [Hlo Hhi].
  set (r := IZR (rint (x * 10 ^ ndigits))) in *.
  replace (r / 10 ^ ndigits - x) with ((r - x * 10 ^ ndigits) / 10 ^ ndigits)
    by (field; lra).
  unfold Rdiv at 1. rewrite Rabs_mult, (Rabs_pos_eq (/ 10 ^ ndigits)).
  - apply Rmult_le_compat_r; [left; by apply Rinv_0_lt_compat |].
    apply Rabs_le. lra.
  - left. by apply Rinv_0_lt_compat.
Qed.

(** ** What a row stands for *)

Lemma implied_move_keeps_column (spot : float64) (st : chains) (col : string) :
  col <> "dist" ->
  calls (snd (implied_move spot st)) !! col = calls st !! col /\
  puts (snd (implied_move spot st)) !! col = puts st !! col.
Proof.
  intros Hcol. rewrite implied_move_final_state.
  destruct (calls st !! "strike"); [|done].
  destruct (puts st !! "strike"); cbn [calls puts];
    rewrite ?lookup_insert_ne by done; done.
Qed.

Lemma skew_proxy_after_implied_move (spot : float64) (st : chains) :
  fst (skew_proxy (snd (implied_move spot st))) = fst (skew_proxy st).
Proof.
  unfold skew_proxy, mbind, M_bind, getitem, mret, M_ret, frame_of, frame_getitem.
  destruct (implied_move_keeps_column spot st "impliedVolatility") as [-> ->]; [done |].
  destruct (puts st !! "impliedVolatility"); [|done].
  destruct (calls st !! "impliedVolatility"); done.
Qed.

Lemma oi_imbalance_after_implied_move (spot : float64) (st : chains) :
  fst (oi_imbalance (snd (implied_move spot st))) = fst (oi_imbalance st).
Proof.
  unfold oi_imbalance, mbind, M_bind, getitem, mret, M_ret, frame_of, frame_getitem.
  destruct (implied_move_keeps_column spot st "openInterest") as [-> ->]; [done |].
  destruct (calls st !! "openInterest"); [|done].
  destruct (puts st !! "openInterest"); done.
Qed.

Section Rows.

Variable yf : Provider.
Variable TODAY : date.
Variables min_underpricing min_prob : float64.

(** X17: every row of a completed scan is accounted for: its ticker is in
    the universe and reports today, its options fetch went through, the
    historical move is a number, the score computed from the four metrics of
    the fetched chain passed the acceptance test, and the row shows the
    spot, the underpricing and the two probabilities rounded to two
    decimals. *)
Theorem listed_row_is_accounted_for (universe : list string) (results : list ResultRow)
    (row : ResultRow) :
  scan yf TODAY min_underpricing min_prob universe = Ok results ->
  row ∈ results ->
  Ticker row ∈ universe /\
  earnings_today yf TODAY (Ticker row) /\
  hist_move yf (Ticker row) <> NaN /\
  exists spot expiry c p im skew oi,
    options_available yf (Ticker row) spot expiry c p /\
    fst (implied_move spot (Chains c p)) = Ok im /\
    fst (skew_proxy (Chains c p)) = Ok skew /\
    fst (oi_imbalance (Chains c p)) = Ok oi /\
    accepted min_underpricing min_prob
      (fst (fst (score_model im (hist_move yf (Ticker row)) skew oi)))
      (snd (fst (score_model im (hist_move yf (Ticker row)) skew oi)))
      (snd (score_model im (hist_move yf (Ticker row)) skew oi)) = true /\
    Spot row = round_ndigits spot 2 /\
    Underpricing row
      = round_ndigits (fst (fst (score_model im (hist_move yf (Ticker row)) skew oi))) 2 /\
    Squeeze_Prob row
      = round_ndigits (snd (fst (score_model im (hist_move yf (Ticker row)) skew oi))) 2 /\
    Cascade_Prob row
      = round_ndigits (snd (score_model im (hist_move yf (Ticker row)) skew oi)) 2.
Proof.
  intros Hscan Hrow.
  destruct (scan_loop_rows _ _ _ _ _ _ _ _ Hscan Hrow) as [Hnil | [Hin Hnew]];
    [by apply elem_of_nil in Hnil |].
  apply scan_ticker_row_inv in Hnew
    as (spot & expiry & c & p & im & skew & oi & st1 & st2 & st3
        & Hrep & Hdata & Him & Hskew & Hoi & Hacc & Heq).
  split; [done |]. split; [by apply reports_today_true |]. split.
  - intros Hnan. rewrite Hnan in Hacc. unfold accepted, score_model in Hacc.
    cbn [fst fdiv fge andb] in Hacc. discriminate.
  - exists spot, expiry, c, p, im, skew, oi.
    assert (st1 = snd (implied_move spot (Chains c p))) as Hst1 by (by rewrite Him).
    assert (st2 = st1) as -> by (by rewrite <- (skew_proxy_state st1), Hskew).
    split; [by apply get_options_data_Some |].
    split; [by rewrite Him |].
    split; [by rewrite <- skew_proxy_after_implied_move with (spot := spot), <- Hst1, Hskew |].
    split; [by rewrite <- oi_imbalance_after_implied_move with (spot := spot), <- Hst1, Hoi |].
    split; [done |].
    rewrite Heq at 1 2 3 4. cbn [Spot Underpricing Squeeze_Prob Cascade_Prob Ticker].
    rewrite Heq. cbn [Ticker]. done.
Qed.

(** X18: when the two thresholds are numbers with two decimals, as the
    values of the sliders are, the rounded figures of every row of a
    completed scan pass them too: the underpricing shown reaches
    [min_underpricing], and the squeeze or the cascade probability shown
    reaches [min_prob]. *)
Theorem listed_row_passes_thresholds (universe : list string) (results : list ResultRow)
    (row : ResultRow) (n m : Z) :
  min_underpricing = Num (IZR n / 100) ->
  min_prob = Num (IZR m / 100) ->
  scan yf TODAY min_underpricing min_prob universe = Ok results ->
  row ∈ results ->
  fge (Underpricing row) min_underpricing = true /\
  (fge (Squeeze_Prob row) min_prob || fge (Cascade_Prob row) min_prob) = true.
Proof.
  intros Hmu Hmp Hscan Hrow.
  destruct (scan_loop_rows _ _ _ _ _ _ _ _ Hscan Hrow) as [Hnil | [Hin Hnew]];
    [by apply elem_of_nil in Hnil |].
  apply scan_ticker_row_inv in Hnew
    as (spot & expiry & c & p & im & skew & oi & st1 & st2 & st3
        & _ & _ & _ & _ & _ & Hacc & Heq).
  rewrite Heq. cbn [Underpricing Squeeze_Prob Cascade_Prob].
  unfold accepted in Hacc. apply andb_true_iff in Hacc as [Hu Hp].
  rewrite Hmu in Hu |- *. rewrite Hmp in Hp |- *.
  split; [by apply round_2_ge |].
  apply orb_true_iff in Hp as [Hp | Hp]; apply orb_true_iff; [left | right];
    by apply round_2_ge.
Qed.

End Rows.

(** ** Thresholds, completeness and the truncated universe *)

Lemma accepted_looser (mu mu' mp mp' : R) (u s c : float64) :
  mu' <= mu -> mp' <= mp ->
  accepted (Num mu) (Num mp) u s c = true ->
  accepted (Num mu') (Num mp') u s c = true.
Proof.
  intros Hmu Hmp. unfold accepted.
  rewrite !andb_true_iff, !orb_true_iff.
  assert (forall (x : float64) (a b : R), b <= a ->
            fge x (Num a) = true -> fge x (Num b) = true) as Hmono.
  { intros [|x] a b Hab; cbn; [done |].
    rewrite !bool_decide_eq_true. lra. }
  intros [Hu [Hs | Hc]]; split; eauto.
Qed.

Section Thresholds.

Variable yf : Provider.
Variable TODAY : date.

Lemma scan_ticker_looser (mu mu' mp mp' : R) (ticker : string) (new : list ResultRow) :
  mu' <= mu -> mp' <= mp ->
  scan_ticker yf TODAY (Num mu) (Num mp) [] ticker = Ok new ->
  exists new',
    scan_ticker yf TODAY (Num mu') (Num mp') [] ticker = Ok new' /\
    new `sublist_of` new'.
Proof.
  intros Hmu Hmp. unfold scan_ticker.
  destruct (reports_today yf TODAY ticker); [|intros [= <-]; by exists []].
  destruct (get_options_data yf ticker) as [[[[spot expiry] c] p]|];
    [|intros [= <-]; by exists []].
  unfold mbind, M_bind.
  destruct (implied_move spot _) as [[im|e] st1]; [|discriminate].
  destruct (skew_proxy st1) as [[skew|e] st2]; [|discriminate].
  destruct (oi_imbalance st2) as [[oi|e] st3]; [|discriminate].
  cbv zeta.
  destruct (score_model im (hist_move yf ticker) skew oi) as [[u s] cs].
  destruct (accepted (Num mu) (Num mp) u s cs) eqn:Hstrict.
  - rewrite (accepted_looser mu mu' mp mp' u s cs Hmu Hmp Hstrict).
    cbn. intros [= <-]. by eexists.
  - cbn. intros [= <-].
    destruct (accepted (Num mu') (Num mp') u s cs); cbn; eexists;
      (split; [reflexivity | apply sublist_nil_l]).
Qed.

(** X19: lowering a threshold never loses a ticker: when a scan completes,
    the scan of the same universe with thresholds that are not higher
    completes as well, and lists every row of the first, in the same
    order. *)
Theorem scan_looser_thresholds (mu mu' mp mp' : R) (universe : list string)
    (strict : list ResultRow) :
  mu' <= mu -> mp' <= mp ->
  scan yf TODAY (Num mu) (Num mp) universe = Ok strict ->
  exists loose,
    scan yf TODAY (Num mu') (Num mp') universe = Ok loose /\
    strict `sublist_of` loose.
Proof.
  intros Hmu Hmp Hscan. unfold scan in *.
  apply scan_loop_concat in Hscan as (news & Hall & ->). cbn [app].
  assert (exists news',
             Forall2 (fun ticker new =>
                        scan_ticker yf TODAY (Num mu') (Num mp') [] ticker = Ok new)
                     universe news' /\
             concat news `sublist_of` concat news') as (news' & Hall' & Hsub).
  { induction Hall as [|ticker new universe news Hnew _ (news' & Hall' & Hsub)].
    - exists []. split; [constructor | done].
    - destruct (scan_ticker_looser mu mu' mp mp' ticker new Hmu Hmp Hnew)
        as (new' & Hnew' & Hsub').
      exists (new' :: news'). split; [by constructor |].
      cbn [concat]. by apply sublist_app. }
  exists (concat news'). split; [| done].
  apply scan_loop_concat. exists news'. done.
Qed.

End Thresholds.

Section Completeness.

Variable yf : Provider.
Variable TODAY : date.
Variables min_underpricing min_prob : float64.

(** X20: no qualifying ticker is lost: when a scan completes, a ticker of
    the universe that reports today, whose options fetch and chain
    extractors go through and whose score passes the acceptance test has a
    row in the results, with its underpricing rounded to two decimals. *)
Theorem accepted_ticker_is_listed
    (universe : list string) (results : list ResultRow) (ticker : string)
    (spot : float64) (expiry : string) (c p : gmap string (list float64))
    (im skew oi : float64) :
  scan yf TODAY min_underpricing min_prob universe = Ok results ->
  ticker ∈ universe ->
  earnings_today yf TODAY ticker ->
  options_available yf ticker spot expiry c p ->
  fst (implied_move spot (Chains c p)) = Ok im ->
  fst (skew_proxy (Chains c p)) = Ok skew ->
  fst (oi_imbalance (Chains c p)) = Ok oi ->
  accepted min_underpricing min_prob
    (fst (fst (score_model im (hist_move yf ticker) skew oi)))
    (snd (fst (score_model im (hist_move yf ticker) skew oi)))
    (snd (score_model im (hist_move yf ticker) skew oi)) = true ->
  exists row,
    row ∈ results /\
    Ticker row = ticker /\
    Underpricing row
      = round_ndigits (fst (fst (score_model im (hist_move yf ticker) skew oi))) 2.
Proof.
  intros Hscan Hin Hrep Hdata Him Hskew Hoi Hacc.
  apply reports_today_true in Hrep. apply get_options_data_Some in Hdata.
  set (st1 := snd (implied_move spot (Chains c p))).
  assert (implied_move spot (Chains c p) = (Ok im, st1)) as Him'.
  { subst st1. destruct (implied_move spot (Chains c p)) as [r s]. cbn in *. by subst. }
  assert (skew_proxy st1 = (Ok skew, st1)) as Hskew'.
  { pose proof (skew_proxy_after_implied_move spot (Chains c p)) as H1.
    pose proof (skew_proxy_state st1) as H2. fold st1 in H1.
    destruct (skew_proxy st1) as [r s]. cbn in *. subst. by rewrite Hskew. }
  assert (oi_imbalance st1 = (Ok oi, st1)) as Hoi'.
  { pose proof (oi_imbalance_after_implied_move spot (Chains c p)) as H1.
    pose proof (oi_imbalance_state st1) as H2. fold st1 in H1.
    destruct (oi_imbalance st1) as [r s]. cbn in *. subst. by rewrite Hoi. }
  pose proof (scan_ticker_scored yf TODAY min_underpricing min_prob [] ticker
                spot expiry c p im skew oi st1 st1 st1 Hrep Hdata Him' Hskew' Hoi')
    as Hnew.
  cbv zeta in Hnew.
  destruct (score_model im (hist_move yf ticker) skew oi) as [[u s] cs] eqn:Hscore.
  cbn [fst snd] in *. rewrite Hacc in Hnew. cbn [app] in Hnew.
  unfold scan in Hscan. apply scan_loop_concat in Hscan as (news & Hall & ->).
  cbn [app].
  apply list_elem_of_lookup in Hin as [i Hi].
  destruct (Forall2_lookup_l _ _ _ _ _ Hall Hi) as (new & Hnews & Hnew').
  rewrite Hnew in Hnew'. injection Hnew' as <-.
  match type of Hnews with _ = Some [?r] => exists r end.
  split; [| split; reflexivity].
  apply list_elem_of_In, in_concat. eexists.
  split; [apply list_elem_of_In; by eapply list_elem_of_lookup_2 |].
  by left.
Qed.

(** X21: the scan of the truncated universe lists at most [max_symbols]
    rows, in the order of the universe file, and none for a symbol beyond
    the first [max_symbols]. *)
Theorem scan_truncated_universe (sp500 : list string) (max_symbols : nat)
    (results : list ResultRow) :
  scan yf TODAY min_underpricing min_prob (UNIVERSE sp500 max_symbols) = Ok results ->
  (length results <= max_symbols)%nat /\
  (Ticker <$> results) `sublist_of` sp500 /\
  (forall row, row ∈ results -> Ticker row ∈ take max_symbols sp500).
Proof.
  intros Hscan. apply scan_results_sublist in Hscan as Hsub. unfold UNIVERSE in *.
  split; [| split].
  - apply sublist_length in Hsub. rewrite length_fmap, length_take in Hsub. lia.
  - etrans; [exact Hsub | apply sublist_take].
  - intros row Hrow. eapply elem_of_sublist; [| exact Hsub].
    apply list_elem_of_fmap. eauto.
Qed.

End Completeness.

(** ** The further properties on the sample provider *)

Lemma sample_scan :
  scan Sample.yf Sample.today (Num 1) (Num 0.5) Sample.universe = Ok [Sample.row_abc].
Proof. exact scenario_listed. Qed.

Lemma sample_metrics :
  fst (implied_move (Num 100) (Chains Sample.calls_abc Sample.puts_abc)) = Ok (Num 0.05) /\
  fst (skew_proxy (Chains Sample.calls_abc Sample.puts_abc)) = Ok (Num 0.01) /\
  fst (oi_imbalance (Chains Sample.calls_abc Sample.puts_abc)) = Ok (Num 0.1).
Proof.
  change (Chains Sample.calls_abc Sample.puts_abc) with Sample.chain_abc.
  split; [| split].
  - rewrite sample_implied_move. cbn [fst fadd lift2].
    rewrite fdiv_Num by lra. do 2 f_equal. lra.
  - erewrite skew_proxy_value by reflexivity.
    unfold series_mean. cbn. do 2 f_equal. lra.
  - erewrite oi_imbalance_value by reflexivity.
    unfold series_sum, Rsum. cbn [fst dropna foldr fadd fsub lift2].
    rewrite fdiv_Num by lra. do 2 f_equal. lra.
Qed.

Lemma sample_accepted :
  accepted (Num 1) (Num 0.5)
    (fst (fst (score_model (Num 0.05) (hist_move Sample.yf "ABC") (Num 0.01) (Num 0.1))))
    (snd (fst (score_model (Num 0.05) (hist_move Sample.yf "ABC") (Num 0.01) (Num 0.1))))
    (snd (score_model (Num 0.05) (hist_move Sample.yf "ABC") (Num 0.01) (Num 0.1)))
  = true.
Proof.
  pose proof scenario_tilt as Htilt.
  rewrite (sample_hist_move "ABC" 107) by (reflexivity || lra).
  rewrite sample_score. unfold accepted. cbn [fst snd fge].
  assert (1 <= (107 / 100 - 1) / (0.05 + 1e-6)) as Hu.
  { apply Rmult_le_reg_r with (0.05 + 1e-6); [lra |].
    unfold Rdiv. rewrite (Rmult_assoc _ (/ _)), Rinv_l by lra. lra. }
  rewrite (bool_decide_eq_true_2 _ Hu).
  rewrite (bool_decide_eq_true_2 (0.5 <= 0.5 + _)) by lra. reflexivity.
Qed.

Lemma scan_keeps_universe_order_witness :
  (Ticker <$> [Sample.row_abc]) `sublist_of` Sample.universe /\
  (length [Sample.row_abc] <= length Sample.universe)%nat /\
  (NoDup Sample.universe -> NoDup (Ticker <$> [Sample.row_abc])).
Proof.
  apply (scan_keeps_universe_order Sample.yf Sample.today (Num 1) (Num 0.5)).
  exact sample_scan.
Defined.

Lemma listed_row_is_accounted_for_witness :
  "ABC" ∈ Sample.universe /\
  earnings_today Sample.yf Sample.today "ABC" /\
  hist_move Sample.yf "ABC" <> NaN.
Proof.
  destruct (listed_row_is_accounted_for Sample.yf Sample.today (Num 1) (Num 0.5)
              Sample.universe [Sample.row_abc] Sample.row_abc sample_scan
              ltac:(apply list_elem_of_singleton; reflexivity))
    as (H1 & H2 & H3 & _).
  exact (conj H1 (conj H2 H3)).
Defined.

Lemma listed_row_passes_thresholds_witness :
  fge (Underpricing Sample.row_abc) (Num 1) = true /\
  (fge (Squeeze_Prob Sample.row_abc) (Num 0.5)
   || fge (Cascade_Prob Sample.row_abc) (Num 0.5)) = true.
Proof.
  apply (listed_row_passes_thresholds Sample.yf Sample.today (Num 1) (Num 0.5)
           Sample.universe [Sample.row_abc] Sample.row_abc 100 50).
  - f_equal. lra.
  - f_equal. lra.
  - exact sample_scan.
  - apply list_elem_of_singleton. reflexivity.
Defined.

Lemma scan_looser_thresholds_witness :
  exists loose,
    scan Sample.yf Sample.today (Num 0.5) (Num 0.4) Sample.universe = Ok loose /\
    [Sample.row_abc] `sublist_of` loose.
Proof.
  apply (scan_looser_thresholds Sample.yf Sample.today 1 0.5 0.5 0.4
           Sample.universe [Sample.row_abc]).
  - lra.
  - lra.
  - exact sample_scan.
Defined.

Lemma accepted_ticker_is_listed_witness :
  exists row,
    row ∈ [Sample.row_abc] /\
    Ticker row = "ABC" /\
    Underpricing row
      = round_ndigits
          (fst (fst (score_model (Num 0.05) (hist_move Sample.yf "ABC")
                       (Num 0.01) (Num 0.1)))) 2.
Proof.
  apply (accepted_ticker_is_listed Sample.yf Sample.today (Num 1) (Num 0.5)
           Sample.universe [Sample.row_abc] "ABC"
           (Num 100) "2026-11-20" Sample.calls_abc Sample.puts_abc
           (Num 0.05) (Num 0.01) (Num 0.1)).
  - exact sample_scan.
  - apply list_elem_of_In. simpl. tauto.
  - apply reports_today_true. reflexivity.
  - apply get_options_data_Some. reflexivity.
  - apply sample_metrics.
  - apply sample_metrics.
  - apply sample_metrics.
  - exact sample_accepted.
Defined.

Lemma scan_truncated_universe_witness :
  (length [Sample.row_abc] <= 5)%nat /\
  (Ticker <$> [Sample.row_abc]) `sublist_of` (Sample.universe ++ ["EMP"; "ZZZ"]) /\
  (forall row, row ∈ [Sample.row_abc] ->
               Ticker row ∈ take 5 (Sample.universe ++ ["EMP"; "ZZZ"])).
Proof.
  apply (scan_truncated_universe Sample.yf Sample.today (Num 1) (Num 0.5)
           (Sample.universe ++ ["EMP"; "ZZZ"]) 5 [Sample.row_abc]).
  exact sample_scan.
Defined.

(** ** Metrics that are not numbers *)

Section NanMetrics.

Variable yf : Provider.
Variable TODAY : date.
Variables min_underpricing min_prob : float64.

(** X22: a ticker for which any of the four metrics is not-a-number -- the
    implied move, the historical move, the skew or the imbalance -- fails
    the acceptance test: the iteration ends without an error and leaves the
    results as they are, and no row of a completed scan carries the
    ticker. *)
Theorem nan_metric_never_listed
    (ticker : string) (spot : float64) (expiry : string)
    (c p : gmap string (list float64))
    (im skew oi : float64) (st1 st2 st3 : chains) :
  get_options_data yf ticker = Some (spot, expiry, c, p) ->
  implied_move spot (Chains c p) = (Ok im, st1) ->
  skew_proxy st1 = (Ok skew, st2) ->
  oi_imbalance st2 = (Ok oi, st3) ->
  im = NaN \/ hist_move yf ticker = NaN \/ skew = NaN \/ oi = NaN ->
  accepted min_underpricing min_prob
    (fst (fst (score_model im (hist_move yf ticker) skew oi)))
    (snd (fst (score_model im (hist_move yf ticker) skew oi)))
    (snd (score_model im (hist_move yf ticker) skew oi)) = false /\
  (forall results,
      scan_ticker yf TODAY min_underpricing min_prob results ticker = Ok results) /\
  (forall universe results,
      scan yf TODAY min_underpricing min_prob universe = Ok results ->
      ticker ∉ Ticker <$> results).
Proof.
  intros Hdata Him Hskew Hoi Hnan.
  assert (accepted min_underpricing min_prob
            (fst (fst (score_model im (hist_move yf ticker) skew oi)))
            (snd (fst (score_model im (hist_move yf ticker) skew oi)))
            (snd (score_model im (hist_move yf ticker) skew oi)) = false) as Hacc.
  { unfold accepted, score_model. cbn [fst snd].
    destruct Hnan as [-> | [-> | [-> | ->]]].
    - destruct (hist_move yf ticker); reflexivity.
    - reflexivity.
    - cbn. destruct (ftanh oi); cbn; apply andb_false_r.
    - cbn. destruct (ftanh skew); cbn; apply andb_false_r. }
  assert (forall results,
            scan_ticker yf TODAY min_underpricing min_prob results ticker = Ok results)
    as Hskip.
  { intros results.
    destruct (reports_today yf TODAY ticker) eqn:Hrep;
      [| by apply scan_ticker_skip_not_reporting].
    rewrite (scan_ticker_scored yf TODAY min_underpricing min_prob results ticker
               spot expiry c p im skew oi st1 st2 st3) by done.
    cbv zeta.
    destruct (score_model im (hist_move yf ticker) skew oi) as [[u s] cs].
    cbn [fst snd] in Hacc. by rewrite Hacc. }
  split; [done |]. split; [done |].
  intros universe results Hscan Hin.
  apply list_elem_of_fmap in Hin as (row & -> & Hrow).
  destruct (scan_loop_rows _ _ _ _ _ _ _ _ Hscan Hrow) as [Hnil | [_ Hnew]].
  - by apply elem_of_nil in Hnil.
  - rewrite Hskip in Hnew. discriminate.
Qed.

End NanMetrics.

Lemma nan_metric_never_listed_witness :
  (forall results,
      scan_ticker Sample.yf_nan_iv Sample.today (Num 1) (Num 0.5) results "ABC"
      = Ok results) /\
  (forall universe results,
      scan Sample.yf_nan_iv Sample.today (Num 1) (Num 0.5) universe = Ok results ->
      "ABC" ∉ Ticker <$> results).
Proof.
  eapply proj2.
  eapply (nan_metric_never_listed Sample.yf_nan_iv Sample.today (Num 1) (Num 0.5) "ABC"
            (Num 100) "2026-11-20" Sample.calls_nan_iv Sample.puts_abc
            (fdiv (fadd (Num 3) (Num 2)) (Num 100)) NaN _ _ _ _).
  - reflexivity.
  - apply (implied_move_value (Num 100) (Chains Sample.calls_nan_iv Sample.puts_abc)
             [Num 90; Num 95; Num 105; Num 110] [Num 90; Num 95; Num 105; Num 110]
             1%nat 1%nat (Num 3) (Num 2)); try reflexivity.
    + unfold idxmin. cbn. settle_comparisons. reflexivity.
    + unfold idxmin. cbn. settle_comparisons. reflexivity.
  - apply (skew_proxy_value _ [NaN; NaN; NaN; NaN]
             [Num 0.32; Num 0.30; Num 0.29; Num 0.29]); reflexivity.
  - apply oi_imbalance_value; reflexivity.
  - right. right. left. reflexivity.
Defined.

(** ** The exception that ends a scan *)

Section FirstFailure.

Variable yf : Provider.
Variable TODAY : date.
Variables min_underpricing min_prob : float64.

Lemma scan_loop_raise (universe : list string) :
  forall (results : list ResultRow) (e : exn),
    scan_loop yf TODAY min_underpricing min_prob results universe = Raise e <->
    exists before ticker after,
      universe = before ++ ticker :: after /\
      Forall (fun t => exists new,
                scan_ticker yf TODAY min_underpricing min_prob [] t = Ok new) before /\
      scan_ticker yf TODAY min_underpricing min_prob [] ticker = Raise e.
Proof.
  induction universe as [|t universe IH]; intros results e.
  - cbn [scan_loop]. split; [discriminate |].
    intros (before & ticker & after & Heq & _). by destruct before.
  - cbn [scan_loop]. rewrite scan_ticker_append.
    destruct (scan_ticker yf TODAY min_underpricing min_prob [] t) as [new|e'] eqn:Hnew;
      cbn [mbind result_bind].
    + rewrite IH. split.
      * intros (before & ticker & after & -> & Hall & Hraise).
        exists (t :: before), ticker, after.
        split; [done |]. split; [constructor; eauto | done].
      * intros (before & ticker & after & Heq & Hall & Hraise).
        destruct before as [|t' before]; cbn [app] in Heq; injection Heq as <- ->.
        -- rewrite Hnew in Hraise. discriminate.
        -- apply Forall_cons in Hall as [_ Hall]. eauto 6.
    + split.
      * intros [= <-]. exists [], t, universe. split; [done |]. split; [constructor | done].
      * intros (before & ticker & after & Heq & Hall & Hraise).
        destruct before as [|t' before]; cbn [app] in Heq; injection Heq as <- ->.
        -- rewrite Hnew in Hraise. by injection Hraise as ->.
        -- apply Forall_cons in Hall as [[new Hok] _].
           rewrite Hnew in Hok. discriminate.
Qed.

(** X25: a scan ends with an exception exactly when the iteration of some
    ticker raises; the exception is that of the first such ticker of the
    universe, the tickers before it having been scanned without one. *)
Theorem scan_raises_first_failure (universe : list string) (e : exn) :
  scan yf TODAY min_underpricing min_prob universe = Raise e <->
  exists before ticker after,
    universe = before ++ ticker :: after /\
    Forall (fun t => exists new,
              scan_ticker yf TODAY min_underpricing min_prob [] t = Ok new) before /\
    scan_ticker yf TODAY min_underpricing min_prob [] ticker = Raise e.
Proof. apply scan_loop_raise. Qed.

End FirstFailure.

Lemma scan_raises_first_failure_witness :
  exists before ticker after,
    ["XYZ"; "EMP"; "ABC"] = before ++ ticker :: after /\
    Forall (fun t => exists new,
              scan_ticker Sample.yf Sample.today (Num 1) (Num 0.5) [] t = Ok new) before /\
    scan_ticker Sample.yf Sample.today (Num 1) (Num 0.5) [] ticker = Raise ValueError.
Proof.
  apply (scan_raises_first_failure Sample.yf Sample.today (Num 1) (Num 0.5)
           ["XYZ"; "EMP"; "ABC"] ValueError).
  exact scan_empty_calls_raises.
Defined.
